(** * schema-ontology: Entity, Component, Relationship, Serialized Entity

    A shallow embedding of [src/index.ts].  The module exports four JSON
    Schema literals and four TypeScript type aliases and nothing else, so
    the development has three layers:

    - the JSON values the schemas talk about ([json]);
    - the schema literals as data ([JSONSchema.schema]) together with the
      meaning of the keywords they use ([errors], [validate]);
    - the type aliases, once as records of typed values and once as
      declared shapes ([ts_type]) that can be compared with the literals. *)

From Stdlib Require Import Floats.PrimFloat.
From stdpp Require Import gmap strings list fin_maps.

#[local] Set Warnings "-register-all,-clear-no-such-hyp".

(** ** JSON values

    A JavaScript number is an IEEE 754 double; an object is a finite map
    from string keys to values. *)

Inductive json : Type :=
| JNull
| JBool (b : bool)
| JNum (n : float)
| JStr (s : string)
| JArr (l : list json)
| JObj (m : gmap string json).

Definition is_string (v : json) : bool :=
  match v with JStr _ => true | _ => false end.

Definition is_object (v : json) : bool :=
  match v with JObj _ => true | _ => false end.

Definition is_array (v : json) : bool :=
  match v with JArr _ => true | _ => false end.

(** ** JSON Schema documents

    Only the keywords that occur in [index.ts] are represented.  A keyword
    that a literal leaves out is [None] (or the empty list for
    [properties] and [required], which mean the same as leaving them out). *)

Module JSONSchema.

Inductive instance_type :=
| t_null | t_boolean | t_number | t_string | t_array | t_object.

Inductive schema : Type := Schema {
  title : option string;
  description : option string;
  type : option instance_type;
  format : option string;
  properties : list (string * schema);
  required : list string;
  items : option schema;
  additionalProperties : option bool
}.

(** The names a schema declares under [properties]. *)
Definition declared (s : schema) : list string := (properties s).*1.

End JSONSchema.

Import JSONSchema.

(** ** The four schema literals of index.ts *)

Definition EntitySchema : schema := {|
  title := Some "Entity Schema";
  description := Some "Represents a pointer to some thing as a URI.";
  type := Some t_object;
  format := None;
  properties := [
    ("id", {| title := None;
              description := Some "A URI to a particular thing.";
              type := Some t_string;
              format := Some "uri";
              properties := []; required := []; items := None;
              additionalProperties := None |})
  ];
  required := ["id"];
  items := None;
  additionalProperties := None
|}.

Definition ComponentSchema : schema := {|
  title := Some "Component Schema";
  description := Some "A schema to represent some quality or property of an entity.";
  type := Some t_object;
  format := None;
  properties := [
    ("type", {| title := None;
                description := Some "The type of the component. Must be a URI.";
                type := Some t_string;
                format := Some "uri";
                properties := []; required := []; items := None;
                additionalProperties := None |});
    ("description", {| title := None;
                       description := Some "A description of the component.";
                       type := Some t_string;
                       format := None;
                       properties := []; required := []; items := None;
                       additionalProperties := None |});
    ("label", {| title := None;
                 description := Some "A label to display as a name for the component.";
                 type := Some t_string;
                 format := None;
                 properties := []; required := []; items := None;
                 additionalProperties := None |});
    ("properties", {| title := None;
                      description := None;
                      type := Some t_object;
                      format := None;
                      properties := []; required := []; items := None;
                      additionalProperties := Some true |})
  ];
  required := ["type"];
  items := None;
  additionalProperties := None
|}.

Definition RelationshipSchema : schema := {|
  title := Some "Relationship Schema";
  description := Some "A schema to represent a relationship between two entities.";
  type := Some t_object;
  format := None;
  properties := [
    ("subject", {| title := None;
                   description := Some "The subject entity of the relationship. Must be a URI.";
                   type := Some t_string;
                   format := Some "uri";
                   properties := []; required := []; items := None;
                   additionalProperties := None |});
    ("predicate", {| title := None;
                     description := Some "The type of relationship. Can be a URI or a descriptive string.";
                     type := Some t_string;
                     format := None;
                     properties := []; required := []; items := None;
                     additionalProperties := None |});
    ("object", {| title := None;
                  description := Some "The object entity of the relationship. Must be a URI.";
                  type := Some t_string;
                  format := Some "uri";
                  properties := []; required := []; items := None;
                  additionalProperties := None |})
  ];
  required := ["subject"; "object"; "predicate"];
  items := None;
  additionalProperties := None
|}.

(** The anonymous literal under
    [SerializedEntitySchema.properties.relationships.items]. *)
Definition EmbeddedRelationshipSchema : schema := {|
  title := None;
  description := None;
  type := Some t_object;
  format := None;
  properties := [
    ("predicate", {| title := None;
                     description := Some "The type of relationship. Can be a URI or a descriptive string.";
                     type := Some t_string;
                     format := None;
                     properties := []; required := []; items := None;
                     additionalProperties := None |});
    ("object", {| title := None;
                  description := Some "A URI to the object entity.";
                  type := Some t_string;
                  format := Some "uri";
                  properties := []; required := []; items := None;
                  additionalProperties := None |})
  ];
  required := [];
  items := None;
  additionalProperties := None
|}.

Definition SerializedEntitySchema : schema := {|
  title := Some "Serialized Entity Schema";
  description := Some "An entity along with its components and relationships.";
  type := Some t_object;
  format := None;
  properties := [
    ("id", {| title := None;
              description := Some "A URI to the entity.";
              type := Some t_string;
              format := Some "uri";
              properties := []; required := []; items := None;
              additionalProperties := None |});
    ("components", {| title := None;
                      description := Some "An array of components associated with the entity.";
                      type := Some t_array;
                      format := None;
                      properties := []; required := [];
                      items := Some ComponentSchema;
                      additionalProperties := None |});
    ("relationships", {| title := None;
                         description := Some "An array of relationships associated with the entity.";
                         type := Some t_array;
                         format := None;
                         properties := []; required := [];
                         items := Some EmbeddedRelationshipSchema;
                         additionalProperties := None |})
  ];
  required := ["id"; "components"; "relationships"];
  items := None;
  additionalProperties := None
|}.

(** ** Meaning of the keywords

    The repository ships no validator of its own: the README hands the
    literals to a JSON Schema validator ("JSON Schema-driven", "for runtime
    validation").  [errors] gives each keyword its JSON Schema meaning and
    collects every violation together with the place it was found at, the
    way validators report them. *)

Inductive keyword := kw_type | kw_format | kw_required | kw_additionalProperties.

Inductive segment := key (k : string) | index (i : nat).

Record error := Error { instancePath : list segment; violated : keyword }.

Definition has_type (t : instance_type) (v : json) : bool :=
  match t, v with
  | t_null, JNull => true
  | t_boolean, JBool _ => true
  | t_number, JNum _ => true
  | t_string, JStr _ => true
  | t_array, JArr _ => true
  | t_object, JObj _ => true
  | _, _ => false
  end.

Definition mem (k : string) (l : list string) : bool :=
  existsb (String.eqb k) l.

Section Validator.

(** The URI syntax checker is not part of the repository; validation is
    relative to whichever checker the validator is configured with. *)
Variable uri : string -> bool.

(** [format] constrains strings only, and only a known format name. *)
Definition check_format (f : string) (v : json) : bool :=
  match v with
  | JStr s => if String.eqb f "uri" then uri s else true
  | _ => true
  end.

Definition type_errors (s : schema) (path : list segment) (v : json) : list error :=
  match type s with
  | Some t => if has_type t v then [] else [Error path kw_type]
  | None => []
  end.

Definition format_errors (s : schema) (path : list segment) (v : json) : list error :=
  match format s with
  | Some f => if check_format f v then [] else [Error path kw_format]
  | None => []
  end.

(** [required] constrains objects only: one violation per missing name. *)
Definition required_errors (s : schema) (path : list segment) (v : json) : list error :=
  match v with
  | JObj m =>
      flat_map (fun k => match m !! k with
                         | Some _ => []
                         | None => [Error path kw_required]
                         end) (required s)
  | _ => []
  end.

(** [additionalProperties: false] rejects every key that is not declared
    under [properties]; [true], like leaving the keyword out, accepts
    them. *)
Definition additional_errors (s : schema) (path : list segment) (v : json) : list error :=
  match additionalProperties s, v with
  | Some false, JObj m =>
      flat_map (fun k => if mem k (declared s) then []
                         else [Error (path ++ [key k]) kw_additionalProperties])
               (elements (dom m))
  | _, _ => []
  end.

Fixpoint errors (s : schema) (path : list segment) (v : json) {struct s} : list error :=
  type_errors s path v
  ++ format_errors s path v
  ++ required_errors s path v
  ++ additional_errors s path v
  ++ match v with
     | JObj m =>
         flat_map (fun p => match m !! p.1 with
                            | Some vk => errors p.2 (path ++ [key p.1]) vk
                            | None => []
                            end) (properties s)
     | _ => []
     end
  ++ match items s, v with
     | Some si, JArr l =>
         mjoin (imap (fun i x => errors si (path ++ [index i]) x) l)
     | _, _ => []
     end.

Definition validate (s : schema) (v : json) : bool :=
  match errors s [] v with
  | [] => true
  | _ :: _ => false
  end.

End Validator.

(** Moving a report below a longer path. *)
Definition relocate (p : list segment) (e : error) : error :=
  Error (p ++ instancePath e) (violated e).

(** ** The four type aliases of index.ts

    Each alias is a record of typed values; an optional field ([?:]) is an
    [option].  Field names recur between the aliases, so each record lives in
    a module of its own. *)

Module Entity.
Record EntityType : Type := { id : string }.
End Entity.
Abbreviation EntityType := Entity.EntityType.

Module Component.
Record ComponentType (T : Type) : Type := {
  type : string;
  description : option string;
  label : option string;
  properties : option T
}.
Arguments Build_ComponentType {T} _ _ _ _.
Arguments type {T} _.
Arguments description {T} _.
Arguments label {T} _.
Arguments properties {T} _.
End Component.

(** The default type argument of [ComponentType] is
    [Record<string, unknown>]: a JSON object with arbitrary values. *)
Abbreviation ComponentType := (Component.ComponentType (gmap string json)).

Module Relationship.
Record RelationshipType : Type := {
  subject : string;
  predicate : string;
  object : string
}.
End Relationship.
Abbreviation RelationshipType := Relationship.RelationshipType.

Module SerializedEntity.
(** The element type of [relationships], anonymous in the source. *)
Record EmbeddedRelationship : Type := {
  predicate : string;
  object : string
}.
Record SerializedEntityType : Type := {
  id : string;
  components : list ComponentType;
  relationships : list EmbeddedRelationship
}.
End SerializedEntity.
Abbreviation EmbeddedRelationship := SerializedEntity.EmbeddedRelationship.
Abbreviation SerializedEntityType := SerializedEntity.SerializedEntityType.

(** *** The typed values as JSON objects *)

Definition set_optional (k : string) (o : option json) (m : gmap string json)
  : gmap string json :=
  match o with
  | Some v => <[k := v]> m
  | None => m
  end.

Definition Entity_to_json (e : EntityType) : json :=
  JObj {[ "id" := JStr (Entity.id e) ]}.

Definition Component_to_json (c : ComponentType) : json :=
  JObj (set_optional "properties" (JObj <$> Component.properties c)
          (set_optional "label" (JStr <$> Component.label c)
             (set_optional "description" (JStr <$> Component.description c)
                {[ "type" := JStr (Component.type c) ]}))).

Definition Relationship_to_json (r : RelationshipType) : json :=
  JObj (<[ "subject" := JStr (Relationship.subject r) ]>
          (<[ "predicate" := JStr (Relationship.predicate r) ]>
             {[ "object" := JStr (Relationship.object r) ]})).

Definition Embedded_fields (r : EmbeddedRelationship) : gmap string json :=
  <[ "predicate" := JStr (SerializedEntity.predicate r) ]>
    {[ "object" := JStr (SerializedEntity.object r) ]}.

Definition Embedded_to_json (r : EmbeddedRelationship) : json :=
  JObj (Embedded_fields r).

Definition SerializedEntity_to_json (se : SerializedEntityType) : json :=
  JObj (<[ "id" := JStr (SerializedEntity.id se) ]>
          (<[ "components" := JArr (Component_to_json <$> SerializedEntity.components se) ]>
             {[ "relationships" := JArr (Embedded_to_json <$> SerializedEntity.relationships se) ]})).

(** *** The aliases as declared shapes

    What an alias declares: for an object type its fields, each optional or
    not, in source order. *)

Inductive ts_type : Type :=
| ts_string
| ts_record_unknown
| ts_array (elem : ts_type)
| ts_object (fields : list (string * (bool * ts_type))).

Definition EntityType_shape : ts_type :=
  ts_object [("id", (false, ts_string))].

Definition ComponentType_shape : ts_type :=
  ts_object [("type", (false, ts_string));
             ("description", (true, ts_string));
             ("label", (true, ts_string));
             ("properties", (true, ts_record_unknown))].

Definition RelationshipType_shape : ts_type :=
  ts_object [("subject", (false, ts_string));
             ("predicate", (false, ts_string));
             ("object", (false, ts_string))].

Definition EmbeddedRelationship_shape : ts_type :=
  ts_object [("predicate", (false, ts_string));
             ("object", (false, ts_string))].

Definition SerializedEntityType_shape : ts_type :=
  ts_object [("id", (false, ts_string));
             ("components", (false, ts_array ComponentType_shape));
             ("relationships", (false, ts_array EmbeddedRelationship_shape))].

(** Structural conformance of a JSON value to a declared shape: a declared
    field must be there unless optional and must conform when there; fields
    that are not declared are not looked at. *)
Fixpoint conforms (t : ts_type) (v : json) {struct t} : bool :=
  match t with
  | ts_string => is_string v
  | ts_record_unknown => is_object v
  | ts_array t' =>
      match v with
      | JArr l => forallb (conforms t') l
      | _ => false
      end
  | ts_object fs =>
      match v with
      | JObj m =>
          forallb (fun f => match m !! f.1 with
                            | Some x => conforms f.2.2 x
                            | None => f.2.1
                            end) fs
      | _ => false
      end
  end.

(** The fields of an object shape with their optionality, and the same
    reading of a schema literal: a declared property is optional unless
    [required] lists it. *)
Definition shape_fields (t : ts_type) : list (string * bool) :=
  match t with
  | ts_object fs => (fun f => (f.1, f.2.1)) <$> fs
  | _ => []
  end.

Definition schema_fields (s : schema) : list (string * bool) :=
  (fun p => (p.1, negb (mem p.1 (required s)))) <$> properties s.

(** ** Error kinds *)

(** Modelled from the spec: index.ts has no error type; these are the four
    kinds that section 7 of the specification names. *)
Inductive ErrorKind := ShapeError | FormatError | TypeError | ConsistencyError.

(** Modelled from the spec: the kind of a reported violation, by section 7.
    A required field that is absent is a ShapeError, a failed format a
    FormatError; a value of the wrong kind is a ShapeError when it is the
    candidate itself ("unexpected top-level shape") and a TypeError when it
    is one of its fields. *)
Definition kind_of (e : error) : ErrorKind :=
  match violated e with
  | kw_required => ShapeError
  | kw_additionalProperties => ShapeError
  | kw_format => FormatError
  | kw_type => match instancePath e with [] => ShapeError | _ :: _ => TypeError end
  end.

(** The kinds a validation reports, in the order found; the empty list is
    success. *)
Definition report (uri : string -> bool) (s : schema) (v : json) : list ErrorKind :=
  kind_of <$> errors uri s [] v.

(** ** URI syntax

    The URI checker is not part of the repository.  The general statements
    below hold for any checker; [is_uri] is used where a statement is
    evaluated on a concrete value. *)

Definition is_alpha (c : Ascii.ascii) : bool :=
  let n := Ascii.nat_of_ascii c in
  ((65 <=? n) && (n <=? 90)) || ((97 <=? n) && (n <=? 122)).

Definition is_digit (c : Ascii.ascii) : bool :=
  let n := Ascii.nat_of_ascii c in (48 <=? n) && (n <=? 57).

Definition is_scheme_char (c : Ascii.ascii) : bool :=
  is_alpha c || is_digit c || mem (String c EmptyString) ["+"; "-"; "."].

Definition is_visible (c : Ascii.ascii) : bool :=
  let n := Ascii.nat_of_ascii c in (33 <=? n) && (n <=? 126).

Fixpoint all_visible (s : string) : bool :=
  match s with
  | EmptyString => true
  | String c s' => is_visible c && all_visible s'
  end.

Fixpoint after_scheme_start (s : string) : bool :=
  match s with
  | EmptyString => false
  | String c s' =>
      if String.eqb (String c EmptyString) ":" then all_visible s'
      else is_scheme_char c && after_scheme_start s'
  end.

(** Modelled from the spec: the URI checker is an external collaborator
    (section 6) of which the specification fixes only that it accepts
    absolute URIs, a scheme followed by a colon.  The scheme is a letter
    followed by letters, digits, [+], [-] or [.]; what follows the colon is
    made of visible ASCII characters. *)
Definition is_uri (s : string) : bool :=
  match s with
  | EmptyString => false
  | String c s' => is_alpha c && after_scheme_start s'
  end.

(** ** Projection and reprojection

    index.ts declares [SerializedEntityType] and [RelationshipType] but no
    function between them; the two transforms are those of section 4.4 of
    the specification.  A transform that can fail returns a [result]. *)

Inductive result (A : Type) : Type :=
| Ok (a : A)
| Fail (e : ErrorKind).
Arguments Ok {A} a.
Arguments Fail {A} e.

#[global] Instance result_ret : MRet result := @Ok.
#[global] Instance result_bind : MBind result :=
  fun A B f r => match r with Ok a => f a | Fail e => Fail e end.

(** Modelled from the spec: projection of one relationship (section 4.4):
    assert [relationship.subject == id], failing with a ConsistencyError
    otherwise, and emit [{predicate, object}]. *)
Definition embed (E : string) (r : RelationshipType) : result EmbeddedRelationship :=
  if decide (Relationship.subject r = E)
  then Ok {| SerializedEntity.predicate := Relationship.predicate r;
             SerializedEntity.object := Relationship.object r |}
  else Fail ConsistencyError.

(** Modelled from the spec: projection of the relationship sequence, in
    order; the first mismatch fails the whole sequence. *)
Fixpoint embed_all (E : string) (R : list RelationshipType)
  : result (list EmbeddedRelationship) :=
  match R with
  | [] => mret []
  | r :: R' => p ← embed E r; ps ← embed_all E R'; mret (p :: ps)
  end.

(** Modelled from the spec: projection (section 4.4): given an entity id, a
    sequence of components and a sequence of full relationships, keep the
    components unchanged and embed each relationship. *)
Definition project (E : string) (C : list ComponentType) (R : list RelationshipType)
  : result SerializedEntityType :=
  ps ← embed_all E R;
  mret {| SerializedEntity.id := E;
          SerializedEntity.components := C;
          SerializedEntity.relationships := ps |}.

(** Modelled from the spec: the full relationship of an embedded pair,
    [{subject: id, predicate, object}]. *)
Definition restore (E : string) (p : EmbeddedRelationship) : RelationshipType :=
  {| Relationship.subject := E;
     Relationship.predicate := SerializedEntity.predicate p;
     Relationship.object := SerializedEntity.object p |}.

(** Modelled from the spec: reprojection (section 4.4): the entity [{id}],
    the component sequence unchanged, and the restored relationships. *)
Definition reproject (se : SerializedEntityType)
  : EntityType * list ComponentType * list RelationshipType :=
  ({| Entity.id := SerializedEntity.id se |},
   SerializedEntity.components se,
   restore (SerializedEntity.id se) <$> SerializedEntity.relationships se).

(** What projection keeps of a relationship. *)
Definition strip (r : RelationshipType) : EmbeddedRelationship :=
  {| SerializedEntity.predicate := Relationship.predicate r;
     SerializedEntity.object := Relationship.object r |}.

Definition succeeds {A} (r : result A) : Prop := exists a, r = Ok a.

(** ** Validation, keyword by keyword

    The last two summands of [errors] by name, and what it means for each
    keyword to be satisfied. *)

Definition properties_errors (uri : string -> bool) (s : schema)
    (path : list segment) (v : json) : list error :=
  match v with
  | JObj m =>
      flat_map (fun p => match m !! p.1 with
                         | Some vk => errors uri p.2 (path ++ [key p.1]) vk
                         | None => []
                         end) (properties s)
  | _ => []
  end.

Definition items_errors (uri : string -> bool) (s : schema)
    (path : list segment) (v : json) : list error :=
  match items s, v with
  | Some si, JArr l => mjoin (imap (fun i x => errors uri si (path ++ [index i]) x) l)
  | _, _ => []
  end.

Definition type_ok (s : schema) (v : json) : Prop :=
  forall t, type s = Some t -> has_type t v = true.

Definition format_ok (uri : string -> bool) (s : schema) (v : json) : Prop :=
  forall f, format s = Some f -> check_format uri f v = true.

Definition required_ok (s : schema) (v : json) : Prop :=
  forall m, v = JObj m -> Forall (fun k => is_Some (m !! k)) (required s).

Definition additional_ok (s : schema) (v : json) : Prop :=
  additionalProperties s = Some false ->
  forall m k, v = JObj m -> is_Some (m !! k) -> k ∈ declared s.

Definition properties_ok (uri : string -> bool) (s : schema) (v : json) : Prop :=
  forall m, v = JObj m ->
    Forall (fun p => forall vk, m !! p.1 = Some vk -> validate uri p.2 vk = true)
           (properties s).

Definition items_ok (uri : string -> bool) (s : schema) (v : json) : Prop :=
  forall si l, items s = Some si -> v = JArr l ->
    Forall (fun x => validate uri si x = true) l.

(** A schema without nested schemas that closes nothing. *)
Definition leaf (s : schema) : Prop :=
  properties s = [] /\ required s = [] /\ items s = None
  /\ additionalProperties s <> Some false.

(** The four exported literals. *)
Definition schemas : list schema :=
  [EntitySchema; ComponentSchema; RelationshipSchema; SerializedEntitySchema].

(** Reading a field of a value; nothing is there unless the value is an
    object that has the key. *)
Definition get (k : string) (v : json) : option json :=
  match v with
  | JObj m => m !! k
  | _ => None
  end.

(** The URI checker that accepts every string: what is left of a schema
    when [format] is not enforced. *)
Definition any_string (s : string) : bool := true.

(** ** Stricter readings of the validators

    Three readings that ask for more than the literals do; each is compared
    with [validate] below. *)

(** An Entity holds the field [id] and nothing else. *)
Definition Entity_exactly_id (uri : string -> bool) (v : json) : Prop :=
  exists x, v = JObj {[ "id" := JStr x ]} /\ uri x = true.

(** The predicate of a Relationship is a non-empty string. *)
Definition Relationship_nonempty_predicate (uri : string -> bool) (v : json) : Prop :=
  exists m s p o, v = JObj m
    /\ m !! "subject" = Some (JStr s) /\ uri s = true
    /\ m !! "predicate" = Some (JStr p) /\ p <> ""
    /\ m !! "object" = Some (JStr o) /\ uri o = true.

(** Every entry of [relationships] has both a [predicate] string and an
    [object] URI. *)
Definition SerializedEntity_complete_pairs (uri : string -> bool) (v : json) : Prop :=
  exists m x cs rs, v = JObj m
    /\ m !! "id" = Some (JStr x) /\ uri x = true
    /\ m !! "components" = Some (JArr cs)
    /\ Forall (fun c => validate uri ComponentSchema c = true) cs
    /\ m !! "relationships" = Some (JArr rs)
    /\ Forall (fun r => exists p o, get "predicate" r = Some (JStr p)
                                    /\ get "object" r = Some (JStr o)
                                    /\ uri o = true) rs.

(** ** Values used in the examples *)

Definition alice : string := "did:example:alice".
Definition bob : string := "did:example:bob".
Definition knows : string := "https://schema.org/knows".

(** [{id: "did:example:alice", extra: true}] *)
Definition alice_with_extra : json :=
  JObj (<[ "extra" := JBool true ]> {[ "id" := JStr alice ]}).

(** The component of the openness example: a payload of nested, unknown
    shape. *)
Definition nested_component : ComponentType :=
  {| Component.type := "urn:example:component:tags";
     Component.description := None;
     Component.label := None;
     Component.properties :=
       Some {[ "nested" :=
                 JObj {[ "arbitrary" :=
                           JArr [JStr "structure"; JNum 1%float; JBool true] ]} ]} |}.

Definition alice_knows_bob : RelationshipType :=
  {| Relationship.subject := alice;
     Relationship.predicate := knows;
     Relationship.object := bob |}.

Definition empty_predicate : RelationshipType :=
  {| Relationship.subject := alice;
     Relationship.predicate := "";
     Relationship.object := bob |}.

(** [{id: "did:example:alice", components: [], relationships: [{}]}] *)
Definition alice_with_empty_pair : json :=
  JObj (<[ "id" := JStr alice ]>
          (<[ "components" := JArr [] ]>
             {[ "relationships" := JArr [JObj ∅] ]})).

(** [{subject: "did:example:bob", predicate: "https://schema.org/knows",
      object: "did:example:bob"}], and the envelope
    [{id: "did:example:alice", components: [], relationships: [...]}]
    holding it. *)
Definition pair_with_subject : json :=
  JObj (<[ "subject" := JStr bob ]>
          (<[ "predicate" := JStr knows ]> {[ "object" := JStr bob ]})).

Definition alice_with_subject_pair : json :=
  JObj (<[ "id" := JStr alice ]>
          (<[ "components" := JArr [] ]>
             {[ "relationships" := JArr [pair_with_subject] ]})).

(** ** Envelopes, and the field names of the README *)

(** The object literal [{id: x, components: cs, relationships: rs}]. *)
Definition envelope (x : string) (cs rs : list json) : json :=
  JObj (<[ "id" := JStr x ]>
          (<[ "components" := JArr cs ]> {[ "relationships" := JArr rs ]})).

(** The README documents a relationship as
    [type RelationshipType = { source; target; predicate }] and the entries
    of a serialized entity as [Array<{ target; predicate }>], where index.ts
    has [subject], [object] and [predicate]. *)
Module ReadmeRelationship.
Record RelationshipType : Type := {
  source : string;
  target : string;
  predicate : string
}.
End ReadmeRelationship.

Module ReadmeEmbedded.
Record EmbeddedRelationship : Type := {
  target : string;
  predicate : string
}.
End ReadmeEmbedded.

Definition ReadmeRelationship_to_json (r : ReadmeRelationship.RelationshipType) : json :=
  JObj (<[ "source" := JStr (ReadmeRelationship.source r) ]>
          (<[ "target" := JStr (ReadmeRelationship.target r) ]>
             {[ "predicate" := JStr (ReadmeRelationship.predicate r) ]})).

Definition ReadmeEmbedded_to_json (r : ReadmeEmbedded.EmbeddedRelationship) : json :=
  JObj (<[ "target" := JStr (ReadmeEmbedded.target r) ]>
          {[ "predicate" := JStr (ReadmeEmbedded.predicate r) ]}).

(** ** Proof steps used more than once *)

Ltac leaf_conditions := repeat split; done.

(** Turn [Forall] over a literal list into one statement per element. *)
Ltac each_element :=
  rewrite ?Forall_cons, ?Forall_nil; cbn [fst snd].
Ltac each_element_in H :=
  rewrite ?Forall_cons, ?Forall_nil in H; cbn [fst snd] in H.

(** * Properties *)

(** ** Structural facts about [errors] *)

(** Induction over a schema reaches the schemas nested under [properties]
    and [items]. *)
Lemma schema_nested_ind (P : schema -> Prop) :
  (forall t d ty f ps r i a,
      Forall (fun p => P p.2) ps ->
      (forall si, i = Some si -> P si) ->
      P (Schema t d ty f ps r i a)) ->
  forall s, P s.
Proof.
  intros step. fix IH 1. intros [t d ty f ps r i a]. apply step.
  - induction ps as [|p ps IHps]; constructor; [apply IH | exact IHps].
  - destruct i as [si'|]; intros si Hsi; [|discriminate].
    injection Hsi as <-. apply IH.
Qed.

Lemma relocate_app p q e : relocate (p ++ q) e = relocate p (relocate q e).
Proof. unfold relocate. simpl. by rewrite app_assoc. Qed.

Lemma relocate_here p k : relocate p (Error [] k) = Error p k.
Proof. unfold relocate. simpl. by rewrite app_nil_r. Qed.

Section ValidatorFacts.

Variable uri : string -> bool.

Lemma type_errors_relocate s p v :
  type_errors s p v = relocate p <$> type_errors s [] v.
Proof.
  unfold type_errors. destruct (type s) as [t|]; [|done].
  destruct (has_type t v); [done|]. simpl. by rewrite relocate_here.
Qed.

Lemma format_errors_relocate s p v :
  format_errors uri s p v = relocate p <$> format_errors uri s [] v.
Proof.
  unfold format_errors. destruct (format s) as [f|]; [|done].
  destruct (check_format uri f v); [done|]. simpl. by rewrite relocate_here.
Qed.

Lemma required_errors_relocate s p v :
  required_errors s p v = relocate p <$> required_errors s [] v.
Proof.
  unfold required_errors. destruct v; try done.
  induction (required s) as [|k ks IH]; [done|]. simpl.
  rewrite fmap_app, <- IH. f_equal.
  destruct (m !! k); [done|]. simpl. by rewrite relocate_here.
Qed.

Lemma additional_errors_relocate s p v :
  additional_errors s p v = relocate p <$> additional_errors s [] v.
Proof.
  unfold additional_errors. destruct (additionalProperties s) as [[]|]; try done.
  destruct v; try done.
  induction (elements (dom m)) as [|k ks IH]; [done|]. cbn [flat_map].
  rewrite fmap_app, <- IH. f_equal.
  destruct (mem k (declared s)); done.
Qed.

Lemma items_errors_relocate (E : json -> list error) p l n :
  mjoin (imap (fun i x => relocate (p ++ [index (n + i)]) <$> E x) l)
  = relocate p <$> mjoin (imap (fun i x => relocate [index (n + i)] <$> E x) l).
Proof.
  revert n. induction l as [|x l IH]; intros n; [done|].
  rewrite !imap_cons. simpl. rewrite fmap_app. f_equal.
  - rewrite <- list_fmap_compose. apply list_fmap_ext.
    intros _ e _. simpl. apply relocate_app.
  - specialize (IH (S n)).
    erewrite (imap_ext _ (fun i x => relocate (p ++ [index (S n + i)]) <$> E x)).
    2:{ intros i y _. simpl. by rewrite Nat.add_succ_r. }
    rewrite IH. f_equal. f_equal.
    apply imap_ext. intros i y _. simpl. by rewrite Nat.add_succ_r.
Qed.

(** A violation found below [p] is the violation found at the root, moved
    below [p]: what is wrong with a value does not depend on where the value
    sits. *)
Lemma errors_relocate s :
  forall p v, errors uri s p v = relocate p <$> errors uri s [] v.
Proof.
  induction s as [t d ty f ps r i a IHps IHi] using schema_nested_ind.
  intros p v.
  set (s := Schema t d ty f ps r i a).
  change (errors uri s p v) with
    (type_errors s p v ++ format_errors uri s p v ++ required_errors s p v
       ++ additional_errors s p v
       ++ match v with
          | JObj m => flat_map (fun q => match m !! q.1 with
                                         | Some vk => errors uri q.2 (p ++ [key q.1]) vk
                                         | None => []
                                         end) ps
          | _ => []
          end
       ++ match i, v with
          | Some si, JArr l => mjoin (imap (fun j x => errors uri si (p ++ [index j]) x) l)
          | _, _ => []
          end).
  change (errors uri s [] v) with
    (type_errors s [] v ++ format_errors uri s [] v ++ required_errors s [] v
       ++ additional_errors s [] v
       ++ match v with
          | JObj m => flat_map (fun q => match m !! q.1 with
                                         | Some vk => errors uri q.2 ([] ++ [key q.1]) vk
                                         | None => []
                                         end) ps
          | _ => []
          end
       ++ match i, v with
          | Some si, JArr l => mjoin (imap (fun j x => errors uri si ([] ++ [index j]) x) l)
          | _, _ => []
          end).
  rewrite !fmap_app.
  rewrite <- type_errors_relocate, <- format_errors_relocate,
    <- required_errors_relocate, <- additional_errors_relocate.
  do 4 f_equal. f_equal.
  - destruct v; try done.
    clear s. induction IHps as [|q ps Hq _ IH]; [done|]. cbn [flat_map].
    rewrite fmap_app, <- IH. f_equal.
    destruct (m !! q.1) as [vk|]; [|done].
    rewrite (Hq (p ++ [key q.1])), (Hq [key q.1]).
    rewrite <- list_fmap_compose. apply list_fmap_ext.
    intros _ e _. simpl. apply relocate_app.
  - destruct i as [si|]; [|by destruct v]. destruct v; try done.
    specialize (IHi si eq_refl).
    erewrite (imap_ext _ (fun j x => relocate (p ++ [index (0 + j)]) <$> errors uri si [] x)).
    2:{ intros j y _. simpl. apply IHi. }
    rewrite items_errors_relocate. f_equal. f_equal.
    apply imap_ext. intros j y _. simpl. symmetry. apply IHi.
Qed.

Lemma validate_errors s v : validate uri s v = true <-> errors uri s [] v = [].
Proof. unfold validate. destruct (errors uri s [] v); naive_solver. Qed.

Lemma errors_nil_path s p v :
  errors uri s p v = [] <-> validate uri s v = true.
Proof.
  rewrite validate_errors, (errors_relocate s p v).
  destruct (errors uri s [] v); naive_solver.
Qed.

(** An array passes [items] exactly when each element passes the item
    schema. *)
Lemma items_errors_nil si p (l : list json) :
  mjoin (imap (fun i x => errors uri si (p ++ [index i]) x) l) = []
  <-> Forall (fun x => validate uri si x = true) l.
Proof.
  assert (forall q, mjoin (imap (fun i x => errors uri si (q i) x) l) = []
                    <-> Forall (fun x => validate uri si x = true) l) as H.
  { induction l as [|x l IH]; intros q.
    - split; [constructor|done].
    - rewrite imap_cons. simpl. rewrite app_nil, Forall_cons.
      rewrite errors_nil_path. unfold compose. by rewrite (IH (fun i => q (S i))). }
  apply (H (fun i => p ++ [index i])).
Qed.

End ValidatorFacts.

(** ** URI syntax, on samples *)

Example is_uri_samples :
  is_uri alice = true /\ is_uri knows = true /\ is_uri "urn:example:component:tags" = true
  /\ is_uri "not a uri" = false /\ is_uri "not-a-uri-either" = false
  /\ is_uri "a" = false /\ is_uri "" = false.
Proof. repeat split; reflexivity. Qed.

(** ** Projection and reprojection *)

Lemma embed_same E r :
  Relationship.subject r = E -> embed E r = Ok (strip r).
Proof. intros H. unfold embed. by rewrite decide_True. Qed.

Lemma embed_other E r :
  Relationship.subject r <> E -> embed E r = Fail ConsistencyError.
Proof. intros H. unfold embed. by rewrite decide_False. Qed.

Lemma embed_all_same E R :
  Forall (fun r => Relationship.subject r = E) R ->
  embed_all E R = Ok (strip <$> R).
Proof.
  induction 1 as [|r R Hr _ IH]; [done|].
  cbn [embed_all]. by rewrite (embed_same _ _ Hr), IH.
Qed.

Lemma embed_all_other E R :
  Exists (fun r => Relationship.subject r <> E) R ->
  embed_all E R = Fail ConsistencyError.
Proof.
  induction 1 as [r R Hr|r R _ IH]; cbn [embed_all].
  - by rewrite (embed_other _ _ Hr).
  - rewrite IH. unfold embed. by case_decide.
Qed.

Lemma restore_strip E r :
  Relationship.subject r = E -> restore E (strip r) = r.
Proof. intros <-. by destruct r. Qed.

Lemma subjects_dichotomy E (R : list RelationshipType) :
  Forall (fun r => Relationship.subject r = E) R
  \/ Exists (fun r => Relationship.subject r <> E) R.
Proof.
  induction R as [|r R [IH|IH]].
  - left. constructor.
  - destruct (decide (Relationship.subject r = E)) as [Hr|Hr].
    + left. by constructor.
    + right. by constructor 1.
  - right. by constructor 2.
Qed.

(** C1. Round trip: when every relationship of R has subject E, projecting
    (E, C, R) succeeds and reprojecting the result gives back the entity
    [{id: E}], the component sequence C and the relationship sequence R
    themselves, element for element in the order supplied (equality of
    lists: nothing is reordered, merged or dropped). *)
Theorem reproject_project (E : string) (C : list ComponentType)
    (R : list RelationshipType) :
  Forall (fun r => Relationship.subject r = E) R ->
  exists se, project E C R = Ok se
             /\ reproject se = ({| Entity.id := E |}, C, R).
Proof.
  intros HR. unfold project. rewrite (embed_all_same _ _ HR).
  eexists. split; [reflexivity|].
  unfold reproject. cbn. f_equal.
  rewrite <- list_fmap_compose.
  rewrite <- (list_fmap_id R) at 2.
  apply Forall_fmap_ext_1. eapply Forall_impl; [exact HR|].
  intros r Hr. cbn. by apply restore_strip.
Qed.

(** C2. Projection is all or nothing: it fails with ConsistencyError, and so
    yields no Serialized Entity, exactly when some relationship of R has a
    subject other than E, and it succeeds exactly when every relationship of
    R has subject E. *)
Theorem project_consistency (E : string) (C : list ComponentType)
    (R : list RelationshipType) :
  (project E C R = Fail ConsistencyError
   <-> Exists (fun r => Relationship.subject r <> E) R)
  /\ (succeeds (project E C R)
      <-> Forall (fun r => Relationship.subject r = E) R)
  /\ (project E C R = Fail ConsistencyError \/ succeeds (project E C R)).
Proof.
  assert (Forall (fun r => Relationship.subject r = E) R -> succeeds (project E C R)) as Hok.
  { intros H. unfold project. rewrite (embed_all_same _ _ H). by eexists. }
  assert (Exists (fun r => Relationship.subject r <> E) R ->
          project E C R = Fail ConsistencyError) as Hfail.
  { intros H. unfold project. by rewrite (embed_all_other _ _ H). }
  destruct (subjects_dichotomy E R) as [H|H].
  - pose proof (Hok H) as [se Hse]. split_and!.
    + split; [by rewrite Hse|done].
    + split; [done|by intros _; exists se].
    + right. by exists se.
  - pose proof (Hfail H) as Hf. split_and!.
    + done.
    + split; [intros [se Hse]; congruence|].
      intros HF. apply Exists_exists in H as (r & Hin & Hr).
      rewrite Forall_forall in HF. by destruct Hr; apply HF.
    + by left.
Qed.

(** ** Validation, keyword by keyword *)

Lemma mem_elem_of k (l : list string) : mem k l = true <-> k ∈ l.
Proof.
  unfold mem. rewrite existsb_exists. split.
  - intros (x & Hin & Heq). apply String.eqb_eq in Heq as ->.
    by apply list_elem_of_In.
  - intros Hin. exists k. split; [by apply list_elem_of_In|apply String.eqb_refl].
Qed.

Lemma flat_map_nil {A B} (f : A -> list B) (l : list A) :
  flat_map f l = [] <-> Forall (fun x => f x = []) l.
Proof.
  induction l as [|x l IH]; cbn [flat_map].
  - split; [constructor|done].
  - rewrite app_nil, Forall_cons, IH. done.
Qed.

Section Keywords.

Variable uri : string -> bool.

Lemma errors_unfold s p v :
  errors uri s p v
  = type_errors s p v ++ format_errors uri s p v ++ required_errors s p v
    ++ additional_errors s p v ++ properties_errors uri s p v
    ++ items_errors uri s p v.
Proof. by destruct s. Qed.

Lemma type_errors_nil s p v : type_errors s p v = [] <-> type_ok s v.
Proof.
  unfold type_errors, type_ok. destruct (type s) as [t|]; [|by split].
  destruct (has_type t v) eqn:Hc; split; try done.
  - by intros _ ? [= <-].
  - intros H. specialize (H _ eq_refl). congruence.
Qed.

Lemma format_errors_nil s p v : format_errors uri s p v = [] <-> format_ok uri s v.
Proof.
  unfold format_errors, format_ok. destruct (format s) as [f|]; [|by split].
  destruct (check_format uri f v) eqn:Hc; split; try done.
  - by intros _ ? [= <-].
  - intros H. specialize (H _ eq_refl). congruence.
Qed.

Lemma required_errors_nil s p v : required_errors s p v = [] <-> required_ok s v.
Proof.
  unfold required_errors, required_ok. destruct v; try naive_solver.
  rewrite flat_map_nil. split.
  - intros H m' [= <-]. eapply Forall_impl; [exact H|].
    intros k Hk. cbn in Hk. by destruct (m !! k).
  - intros H. eapply Forall_impl; [exact (H m eq_refl)|].
    intros k [x Hk]. cbn. by rewrite Hk.
Qed.

Lemma additional_errors_nil s p v :
  additional_errors s p v = [] <-> additional_ok s v.
Proof.
  unfold additional_errors, additional_ok.
  destruct (additionalProperties s) as [[]|]; try naive_solver.
  destruct v; try naive_solver.
  rewrite flat_map_nil, Forall_forall. split.
  - intros H _ m' k [= <-] Hk. apply mem_elem_of.
    specialize (H k). rewrite elem_of_elements, elem_of_dom in H.
    specialize (H Hk). by destruct (mem k (declared s)).
  - intros H k Hk. rewrite elem_of_elements, elem_of_dom in Hk.
    pose proof (H eq_refl m k eq_refl Hk) as Hd.
    apply mem_elem_of in Hd. by rewrite Hd.
Qed.

Lemma properties_errors_nil s p v :
  properties_errors uri s p v = [] <-> properties_ok uri s v.
Proof.
  unfold properties_errors, properties_ok. destruct v; try naive_solver.
  rewrite flat_map_nil. split.
  - intros H m' [= <-]. eapply Forall_impl; [exact H|].
    intros q Hq vk Hvk. cbn in Hq. rewrite Hvk in Hq.
    by apply errors_nil_path in Hq.
  - intros H. eapply Forall_impl; [exact (H m eq_refl)|].
    intros q Hq. cbn. destruct (m !! q.1) as [vk|] eqn:Hvk; [|done].
    apply errors_nil_path. by apply Hq.
Qed.

Lemma items_errors_nil' s p v :
  items_errors uri s p v = [] <-> items_ok uri s v.
Proof.
  unfold items_errors, items_ok. destruct (items s) as [si|]; [|naive_solver].
  destruct v; try naive_solver.
  rewrite items_errors_nil. naive_solver.
Qed.

(** Validation succeeds exactly when every keyword of the schema is
    satisfied. *)
Lemma validate_iff s v :
  validate uri s v = true
  <-> type_ok s v /\ format_ok uri s v /\ required_ok s v
      /\ additional_ok s v /\ properties_ok uri s v /\ items_ok uri s v.
Proof.
  rewrite validate_errors, errors_unfold, !app_nil.
  rewrite type_errors_nil, format_errors_nil, required_errors_nil,
    additional_errors_nil, properties_errors_nil, items_errors_nil'.
  done.
Qed.

Lemma validate_leaf s v :
  leaf s -> validate uri s v = true <-> type_ok s v /\ format_ok uri s v.
Proof.
  intros (Hp & Hr & Hi & Ha). rewrite validate_iff.
  unfold required_ok, additional_ok, properties_ok, items_ok.
  rewrite Hp, Hr, Hi. naive_solver.
Qed.

(** A string schema with [format: 'uri'] accepts the strings the checker
    accepts; without a format, every string; an object schema that is a
    leaf, every object. *)
Lemma validate_uri_string s v :
  leaf s -> type s = Some t_string -> format s = Some "uri" ->
  validate uri s v = true <-> exists x, v = JStr x /\ uri x = true.
Proof.
  intros Hl Ht Hf. rewrite (validate_leaf _ _ Hl).
  unfold type_ok, format_ok. rewrite Ht, Hf. split.
  - intros [H1 H2]. specialize (H1 _ eq_refl). specialize (H2 _ eq_refl).
    destruct v; try done. eauto.
  - intros (x & -> & Hx). split; intros ? [= <-]; done.
Qed.

Lemma validate_plain_string s v :
  leaf s -> type s = Some t_string -> format s = None ->
  validate uri s v = true <-> exists x, v = JStr x.
Proof.
  intros Hl Ht Hf. rewrite (validate_leaf _ _ Hl).
  unfold type_ok, format_ok. rewrite Ht, Hf. split.
  - intros [H1 _]. specialize (H1 _ eq_refl). destruct v; try done. eauto.
  - intros (x & ->). split; [intros ? [= <-]|]; done.
Qed.

Lemma validate_open_object s v :
  leaf s -> type s = Some t_object -> format s = None ->
  validate uri s v = true <-> exists m, v = JObj m.
Proof.
  intros Hl Ht Hf. rewrite (validate_leaf _ _ Hl).
  unfold type_ok, format_ok. rewrite Ht, Hf. split.
  - intros [H1 _]. specialize (H1 _ eq_refl). destruct v; try done. eauto.
  - intros (x & ->). split; [intros ? [= <-]|]; done.
Qed.

(** *** What a failed validation reports *)

Lemma report_unfold s v :
  report uri s v
  = kind_of <$> (type_errors s [] v ++ format_errors uri s [] v
                 ++ required_errors s [] v ++ additional_errors s [] v
                 ++ properties_errors uri s [] v ++ items_errors uri s [] v).
Proof. unfold report. by rewrite errors_unfold. Qed.

Lemma report_nil s v : report uri s v = [] <-> validate uri s v = true.
Proof.
  unfold report. rewrite validate_errors.
  destruct (errors uri s [] v); naive_solver.
Qed.

(** A value that is not of the schema's type at the root is a ShapeError. *)
Lemma report_wrong_type s t v :
  type s = Some t -> has_type t v = false -> ShapeError ∈ report uri s v.
Proof.
  intros Ht Hv. rewrite report_unfold, !fmap_app, !elem_of_app. left.
  unfold type_errors. rewrite Ht, Hv. cbn. by left.
Qed.

(** A required field that is absent is a ShapeError. *)
Lemma report_missing s m k :
  k ∈ required s -> m !! k = None -> ShapeError ∈ report uri s (JObj m).
Proof.
  intros Hk Hm. rewrite report_unfold, !fmap_app, !elem_of_app.
  right. right. left.
  apply list_elem_of_fmap. exists (Error [] kw_required). split; [done|].
  unfold required_errors. apply list_elem_of_In, in_flat_map.
  exists k. split; [by apply list_elem_of_In|]. rewrite Hm. by left.
Qed.

(** A field that is a string but not of the declared format is a
    FormatError. *)
Lemma report_bad_format s m k sk f x :
  (k, sk) ∈ properties s -> format sk = Some f ->
  m !! k = Some (JStr x) -> check_format uri f (JStr x) = false ->
  FormatError ∈ report uri s (JObj m).
Proof.
  intros Hk Hf Hm Hx. rewrite report_unfold, !fmap_app, !elem_of_app.
  do 4 right. left.
  apply list_elem_of_fmap. exists (Error ([] ++ [key k]) kw_format). split; [done|].
  unfold properties_errors. apply list_elem_of_In, in_flat_map.
  exists (k, sk). split; [by apply list_elem_of_In|]. cbn [fst snd]. rewrite Hm.
  rewrite errors_unfold. apply in_or_app. right. apply in_or_app. left.
  unfold format_errors. rewrite Hf, Hx. by left.
Qed.

End Keywords.

(** ** What each literal accepts *)

Section Literals.

Variable uri : string -> bool.

(** An object schema whose nested schemas sit under [properties] only and
    which leaves [additionalProperties] open. *)
Lemma validate_object s v :
  type s = Some t_object -> format s = None -> items s = None ->
  additionalProperties s <> Some false ->
  validate uri s v = true
  <-> exists m, v = JObj m
        /\ Forall (fun k => is_Some (m !! k)) (required s)
        /\ Forall (fun p => forall vk, m !! p.1 = Some vk -> validate uri p.2 vk = true)
                  (properties s).
Proof.
  intros Ht Hf Hi Ha. rewrite validate_iff.
  unfold type_ok, format_ok, required_ok, additional_ok, properties_ok, items_ok.
  rewrite Ht, Hf, Hi. split.
  - intros (H1 & _ & H3 & _ & H5 & _). specialize (H1 _ eq_refl).
    destruct v; try done. exists m. split; [done|]. split; [by apply H3|by apply H5].
  - intros (m & -> & H3 & H5). split_and!; try done.
    + by intros ? [= <-].
    + by intros ? [= <-].
    + by intros ? [= <-].
Qed.

Lemma EntitySchema_accepts v :
  validate uri EntitySchema v = true
  <-> exists m x, v = JObj m /\ m !! "id" = Some (JStr x) /\ uri x = true.
Proof.
  rewrite validate_object by done. cbn [required properties EntitySchema].
 cbn [fst snd]. split.
  - intros (m & -> & Hr & Hp). each_element_in Hr. each_element_in Hp.
    destruct Hr as [[vk Hvk] _]. destruct Hp as [Hp _]. specialize (Hp vk Hvk).
    apply validate_uri_string in Hp as (x & -> & Hx); [|leaf_conditions|done|done].
    by exists m, x.
  - intros (m & x & -> & Hm & Hx). exists m. each_element.
    split_and!; [done|by eexists|done|idtac|done].
    intros vk Hvk. rewrite Hm in Hvk. injection Hvk as <-.
    apply validate_uri_string; [leaf_conditions|done|done|]. by exists x.
Qed.

Lemma ComponentSchema_accepts v :
  validate uri ComponentSchema v = true
  <-> exists m, v = JObj m
        /\ (exists t, m !! "type" = Some (JStr t) /\ uri t = true)
        /\ (forall d, m !! "description" = Some d -> exists x, d = JStr x)
        /\ (forall l, m !! "label" = Some l -> exists x, l = JStr x)
        /\ (forall p, m !! "properties" = Some p -> exists pm, p = JObj pm).
Proof.
  rewrite validate_object by done. cbn [required properties ComponentSchema].
  cbn [fst snd]. split.
  - intros (m & -> & Hr & Hps). each_element_in Hr. each_element_in Hps.
    destruct Hr as [[vk Hvk] _]. destruct Hps as (Ht & Hd & Hl & Hp & _).
    exists m. split_and!; [done|..].
    + specialize (Ht vk Hvk).
      apply validate_uri_string in Ht as (x & -> & Hx); [|leaf_conditions|done|done].
      by exists x.
    + intros d Hm. specialize (Hd d Hm).
      by apply validate_plain_string in Hd; [|leaf_conditions|done|done].
    + intros l Hm. specialize (Hl l Hm).
      by apply validate_plain_string in Hl; [|leaf_conditions|done|done].
    + intros p Hm. specialize (Hp p Hm).
      by apply validate_open_object in Hp; [|leaf_conditions|done|done].
  - intros (m & -> & (t & Hm & Ht) & Hd & Hl & Hp). exists m. each_element.
    split_and!; [done|by eexists|done|idtac|idtac|idtac|idtac|done].
    + intros vk Hvk. rewrite Hm in Hvk. injection Hvk as <-.
      apply validate_uri_string; [leaf_conditions|done|done|]. by exists t.
    + intros vk Hvk. apply validate_plain_string; [leaf_conditions|done|done|]. eauto.
    + intros vk Hvk. apply validate_plain_string; [leaf_conditions|done|done|]. eauto.
    + intros vk Hvk. apply validate_open_object; [leaf_conditions|done|done|]. eauto.
Qed.

Lemma RelationshipSchema_accepts v :
  validate uri RelationshipSchema v = true
  <-> exists m s p o, v = JObj m
        /\ m !! "subject" = Some (JStr s) /\ uri s = true
        /\ m !! "predicate" = Some (JStr p)
        /\ m !! "object" = Some (JStr o) /\ uri o = true.
Proof.
  rewrite validate_object by done. cbn [required properties RelationshipSchema].
 cbn [fst snd]. split.
  - intros (m & -> & Hr & Hps). each_element_in Hr. each_element_in Hps.
    destruct Hr as ([vs Hvs] & [vo Hvo] & [vp Hvp] & _).
    destruct Hps as (Hs & Hp & Ho & _).
    specialize (Hs vs Hvs). specialize (Hp vp Hvp). specialize (Ho vo Hvo).
    apply validate_uri_string in Hs as (s & -> & Hs); [|leaf_conditions|done|done].
    apply validate_plain_string in Hp as (p & ->); [|leaf_conditions|done|done].
    apply validate_uri_string in Ho as (o & -> & Ho); [|leaf_conditions|done|done].
    by exists m, s, p, o.
  - intros (m & s & p & o & -> & Hms & Hs & Hmp & Hmo & Ho). exists m.
    each_element.
    split_and!; [done|by eexists|by eexists|by eexists|done|idtac|idtac|idtac|done].
    + intros vk Hvk. rewrite Hms in Hvk. injection Hvk as <-.
      apply validate_uri_string; [leaf_conditions|done|done|]. by exists s.
    + intros vk Hvk. apply validate_plain_string; [leaf_conditions|done|done|].
      rewrite Hmp in Hvk. injection Hvk as <-. eauto.
    + intros vk Hvk. rewrite Hmo in Hvk. injection Hvk as <-.
      apply validate_uri_string; [leaf_conditions|done|done|]. by exists o.
Qed.

Lemma EmbeddedRelationshipSchema_accepts v :
  validate uri EmbeddedRelationshipSchema v = true
  <-> exists m, v = JObj m
        /\ (forall p, m !! "predicate" = Some p -> exists x, p = JStr x)
        /\ (forall o, m !! "object" = Some o -> exists x, o = JStr x /\ uri x = true).
Proof.
  rewrite validate_object by done.
  cbn [required properties EmbeddedRelationshipSchema].
  cbn [fst snd]. split.
  - intros (m & -> & _ & Hps). each_element_in Hps. destruct Hps as (Hp & Ho & _).
    exists m. split_and!; [done|..].
    + intros p Hm. specialize (Hp p Hm).
      by apply validate_plain_string in Hp; [|leaf_conditions|done|done].
    + intros o Hm. specialize (Ho o Hm).
      by apply validate_uri_string in Ho; [|leaf_conditions|done|done].
  - intros (m & -> & Hp & Ho). exists m. each_element.
    split_and!; [done|done|idtac|idtac|done].
    + intros vk Hvk. apply validate_plain_string; [leaf_conditions|done|done|]. eauto.
    + intros vk Hvk. apply validate_uri_string; [leaf_conditions|done|done|]. eauto.
Qed.

(** An array schema: the value is an array and each element passes
    [items]. *)
Lemma validate_array s si v :
  type s = Some t_array -> format s = None -> items s = Some si ->
  validate uri s v = true
  <-> exists l, v = JArr l /\ Forall (fun x => validate uri si x = true) l.
Proof.
  intros Ht Hf Hi. rewrite validate_iff.
  unfold type_ok, format_ok, required_ok, additional_ok, properties_ok, items_ok.
  rewrite Ht, Hf, Hi. split.
  - intros (H1 & _ & _ & _ & _ & H6). specialize (H1 _ eq_refl).
    destruct v; try done. exists l. split; [done|]. by eapply H6.
  - intros (l & -> & Hl). split_and!; try done.
    + by intros ? [= <-].
    + by intros ? ? [= <-] [= <-].
Qed.

Lemma SerializedEntitySchema_accepts v :
  validate uri SerializedEntitySchema v = true
  <-> exists m x cs rs, v = JObj m
        /\ m !! "id" = Some (JStr x) /\ uri x = true
        /\ m !! "components" = Some (JArr cs)
        /\ Forall (fun c => validate uri ComponentSchema c = true) cs
        /\ m !! "relationships" = Some (JArr rs)
        /\ Forall (fun r => validate uri EmbeddedRelationshipSchema r = true) rs.
Proof.
  rewrite validate_object by done.
  cbn [required properties SerializedEntitySchema].
 cbn [fst snd]. split.
  - intros (m & -> & Hq & Hps). each_element_in Hq. each_element_in Hps.
    destruct Hq as ([vi Hvi] & [vc Hvc] & [vr Hvr] & _).
    destruct Hps as (Hi & Hc & Hr & _).
    specialize (Hi vi Hvi). specialize (Hc vc Hvc). specialize (Hr vr Hvr).
    apply validate_uri_string in Hi as (x & -> & Hx); [|leaf_conditions|done|done].
    eapply validate_array in Hc as (cs & -> & Hcs); [|done..].
    eapply validate_array in Hr as (rs & -> & Hrs); [|done..].
    by exists m, x, cs, rs.
  - intros (m & x & cs & rs & -> & Hmi & Hx & Hmc & Hcs & Hmr & Hrs). exists m.
    each_element.
    split_and!; [done|by eexists|by eexists|by eexists|done|idtac|idtac|idtac|done].
    + intros vk Hvk. rewrite Hmi in Hvk. injection Hvk as <-.
      apply validate_uri_string; [leaf_conditions|done|done|]. by exists x.
    + intros vk Hvk. rewrite Hmc in Hvk. injection Hvk as <-.
      eapply validate_array; [done..|]. by exists cs.
    + intros vk Hvk. rewrite Hmr in Hvk. injection Hvk as <-.
      eapply validate_array; [done..|]. by exists rs.
Qed.

End Literals.

(** ** Fields that a schema does not declare *)

Lemma flat_map_ext_Forall {A B} (f g : A -> list B) (l : list A) :
  Forall (fun x => f x = g x) l -> flat_map f l = flat_map g l.
Proof.
  induction 1 as [|x l Hx _ IH]; [done|]. cbn [flat_map]. by rewrite Hx, IH.
Qed.

(** Under a schema that leaves [additionalProperties] open and requires only
    declared names, an undeclared key changes nothing in what validation
    reports. *)
Lemma errors_insert_undeclared uri s p (m : gmap string json) k x :
  additionalProperties s <> Some false ->
  k ∉ declared s -> required s ⊆ declared s ->
  errors uri s p (JObj (<[k := x]> m)) = errors uri s p (JObj m).
Proof.
  intros Ha Hk Hr. rewrite !errors_unfold.
  apply f_equal2; [|apply f_equal2; [|apply f_equal2; [|apply f_equal2; [|apply f_equal2]]]].
  - unfold type_errors. destruct (type s) as [[]|]; done.
  - unfold format_errors. destruct (format s); done.
  - unfold required_errors. apply flat_map_ext_Forall, Forall_forall.
    intros k' Hk'. rewrite lookup_insert_ne; [done|].
    intros ->. by apply Hk, Hr.
  - unfold additional_errors. destruct (additionalProperties s) as [[]|]; done.
  - unfold properties_errors. apply flat_map_ext_Forall, Forall_forall.
    intros q Hq. rewrite lookup_insert_ne; [done|].
    intros ->. apply Hk. unfold declared. apply list_elem_of_fmap. by exists q.
  - unfold items_errors. destruct (items s); done.
Qed.

Lemma validate_insert_undeclared uri s (m : gmap string json) k x :
  additionalProperties s <> Some false ->
  k ∉ declared s -> required s ⊆ declared s ->
  validate uri s (JObj (<[k := x]> m)) = validate uri s (JObj m).
Proof.
  intros Ha Hk Hr. unfold validate. by rewrite errors_insert_undeclared.
Qed.

Lemma schemas_open s :
  s ∈ schemas ->
  additionalProperties s <> Some false /\ required s ⊆ declared s.
Proof.
  unfold schemas. rewrite !elem_of_cons, elem_of_nil.
  intros [->|[->|[->|[->|[]]]]]; (split; [done|]); cbn; set_solver.
Qed.

(** ** Conformance to the declared shapes *)

Lemma conforms_object fs v :
  conforms (ts_object fs) v = true
  <-> exists m, v = JObj m
        /\ Forall (fun f => match m !! f.1 with
                            | Some x => conforms f.2.2 x = true
                            | None => f.2.1 = true
                            end) fs.
Proof.
  cbn [conforms]. destruct v; try (split; [done|by intros (? & ? & _)]).
  split.
  - intros H. exists m. split; [done|].
    induction fs as [|f fs IH]; [constructor|].
    cbn [forallb] in H. apply andb_true_iff in H as [Hf H].
    constructor; [by destruct (m !! f.1)|by apply IH].
  - intros (m' & [= <-] & H).
    induction H as [|f fs Hf _ IH]; [done|].
    cbn [forallb]. apply andb_true_iff. split; [by destruct (m !! f.1)|done].
Qed.

Lemma is_string_true v : is_string v = true <-> exists x, v = JStr x.
Proof. destruct v; split; try done; try (by intros [? ?]); eauto. Qed.

Lemma is_object_true v : is_object v = true <-> exists m, v = JObj m.
Proof. destruct v; split; try done; try (by intros [? ?]); eauto. Qed.

Lemma bool_eq_iff (a b : bool) : (a = true <-> b = true) -> a = b.
Proof. destruct a, b; intros [H1 H2]; try done; [symmetry|]; auto. Qed.

Lemma EntityType_conforms v :
  conforms EntityType_shape v = true
  <-> exists m x, v = JObj m /\ m !! "id" = Some (JStr x).
Proof.
  unfold EntityType_shape. rewrite conforms_object. split.
  - intros (m & -> & H). each_element_in H. destruct H as [H _].
    destruct (m !! "id") as [vi|] eqn:Hi; [|done].
    apply is_string_true in H as [x ->]. by exists m, x.
  - intros (m & x & -> & Hm). exists m. split; [done|]. each_element.
    by rewrite Hm.
Qed.

Lemma ComponentType_conforms v :
  conforms ComponentType_shape v = true
  <-> exists m, v = JObj m
        /\ (exists t, m !! "type" = Some (JStr t))
        /\ (forall d, m !! "description" = Some d -> exists x, d = JStr x)
        /\ (forall l, m !! "label" = Some l -> exists x, l = JStr x)
        /\ (forall p, m !! "properties" = Some p -> exists pm, p = JObj pm).
Proof.
  unfold ComponentType_shape. rewrite conforms_object. split.
  - intros (m & -> & H). each_element_in H. destruct H as (Ht & Hd & Hl & Hp & _).
    exists m. split_and!; [done|..].
    + destruct (m !! "type") as [vt|] eqn:Hmt; [|done].
      apply is_string_true in Ht as [x ->]. by exists x.
    + intros d Hm. rewrite Hm in Hd. by apply is_string_true.
    + intros l Hm. rewrite Hm in Hl. by apply is_string_true.
    + intros p Hm. rewrite Hm in Hp. by apply is_object_true.
  - intros (m & -> & (t & Ht) & Hd & Hl & Hp). exists m. split; [done|].
    each_element. rewrite Ht. split_and!; [done|..|done].
    + destruct (m !! "description") as [d|]; [|done].
      apply is_string_true. by apply Hd.
    + destruct (m !! "label") as [l|]; [|done].
      apply is_string_true. by apply Hl.
    + destruct (m !! "properties") as [q|]; [|done].
      apply is_object_true. by apply Hp.
Qed.

Lemma RelationshipType_conforms v :
  conforms RelationshipType_shape v = true
  <-> exists m s p o, v = JObj m
        /\ m !! "subject" = Some (JStr s)
        /\ m !! "predicate" = Some (JStr p)
        /\ m !! "object" = Some (JStr o).
Proof.
  unfold RelationshipType_shape. rewrite conforms_object. split.
  - intros (m & -> & H). each_element_in H. destruct H as (Hs & Hp & Ho & _).
    destruct (m !! "subject") as [vs|] eqn:Hms; [|done].
    destruct (m !! "predicate") as [vp|] eqn:Hmp; [|done].
    destruct (m !! "object") as [vo|] eqn:Hmo; [|done].
    apply is_string_true in Hs as [s ->].
    apply is_string_true in Hp as [p ->].
    apply is_string_true in Ho as [o ->].
    by exists m, s, p, o.
  - intros (m & s & p & o & -> & Hs & Hp & Ho). exists m. split; [done|].
    each_element. by rewrite Hs, Hp, Ho.
Qed.

(** ** Entity *)

(** C4, as stated, fails: an object with a URI [id] and one more key passes
    EntitySchema although it does not consist of the field [id] alone. *)
Lemma Entity_extra_field_accepted :
  validate is_uri EntitySchema alice_with_extra = true
  /\ ~ Entity_exactly_id is_uri alice_with_extra.
Proof.
  split; [by vm_compute|].
  intros (x & H & _). apply (f_equal (get "extra")) in H.
  vm_compute in H. discriminate.
Qed.

(** C4 (amended). Entity validation succeeds if and only if the value is an
    object whose [id] field is present and is a string that the URI checker
    accepts; other fields may be present and are not looked at.  When [id]
    is missing the one error reported is a ShapeError, when [id] is a string
    that is not a URI it is a FormatError (when [id] is not a string at all
    it is a TypeError, and a candidate that is not an object is a
    ShapeError).  [{id: "did:example:alice"}] passes and [{}] fails with
    ShapeError. *)
Theorem Entity_validation (uri : string -> bool) (v : json) :
  (validate uri EntitySchema v = true
   <-> exists m x, v = JObj m /\ m !! "id" = Some (JStr x) /\ uri x = true)
  /\ (forall m k x, v = JObj m -> k <> "id" ->
        validate uri EntitySchema (JObj (<[k := x]> m)) = validate uri EntitySchema v)
  /\ (forall m, v = JObj m -> m !! "id" = None ->
        report uri EntitySchema v = [ShapeError])
  /\ (forall m x, v = JObj m -> m !! "id" = Some (JStr x) -> uri x = false ->
        report uri EntitySchema v = [FormatError])
  /\ (forall m x, v = JObj m -> m !! "id" = Some x -> is_string x = false ->
        report uri EntitySchema v = [TypeError])
  /\ (is_object v = false -> report uri EntitySchema v = [ShapeError])
  /\ validate is_uri EntitySchema (JObj {[ "id" := JStr "did:example:alice" ]}) = true
  /\ report is_uri EntitySchema (JObj ∅) = [ShapeError].
Proof.
  split_and!.
  - apply EntitySchema_accepts.
  - intros m k x -> Hk. apply validate_insert_undeclared; [done|..].
    + cbn. set_solver.
    + cbn. set_solver.
  - intros m -> Hm. unfold report. cbn. by rewrite Hm.
  - intros m x -> Hm Hx. unfold report. cbn. rewrite Hm. cbn. by rewrite Hx.
  - intros m x -> Hm Hx. unfold report. cbn. rewrite Hm. by destruct x.
  - intros Hv. by destruct v.
  - by vm_compute.
  - by vm_compute.
Qed.

(** ** Component *)

Lemma project_components E C R se :
  project E C R = Ok se -> SerializedEntity.components se = C.
Proof.
  unfold project. destruct (embed_all E R) as [ps|e]; [|done].
  by intros [= <-].
Qed.

(** C5. Component validation succeeds if and only if the value is an object
    whose [type] field is present and is a string the URI checker accepts,
    whose [description] and [label], when present, are strings, and whose
    [properties], when present, is an object; the content of that object is
    not constrained (any object in its place keeps a valid component valid).
    A component with [type] alone validates; a [type] string that is not a
    URI is reported as a FormatError.  Projection followed by reprojection
    hands the components back unchanged, whatever their payload, as for the
    nested example. *)
Theorem Component_validation (uri : string -> bool) (v : json) :
  (validate uri ComponentSchema v = true
   <-> exists m, v = JObj m
         /\ (exists t, m !! "type" = Some (JStr t) /\ uri t = true)
         /\ (forall d, m !! "description" = Some d -> exists x, d = JStr x)
         /\ (forall l, m !! "label" = Some l -> exists x, l = JStr x)
         /\ (forall p, m !! "properties" = Some p -> exists pm, p = JObj pm))
  /\ (forall m pm, v = JObj m -> validate uri ComponentSchema v = true ->
        validate uri ComponentSchema (JObj (<[ "properties" := JObj pm ]> m)) = true)
  /\ (forall t, uri t = true ->
        validate uri ComponentSchema (JObj {[ "type" := JStr t ]}) = true)
  /\ (forall m t, v = JObj m -> m !! "type" = Some (JStr t) -> uri t = false ->
        FormatError ∈ report uri ComponentSchema v)
  /\ (forall E C R,
        Forall (fun r => Relationship.subject r = E) R ->
        exists se, project E C R = Ok se /\ (reproject se).1.2 = C)
  /\ validate is_uri ComponentSchema (Component_to_json nested_component) = true
  /\ (exists se, project alice [nested_component; nested_component] [] = Ok se
                 /\ (reproject se).1.2 = [nested_component; nested_component]).
Proof.
  split_and!.
  - apply ComponentSchema_accepts.
  - intros m pm -> H. apply ComponentSchema_accepts in H
      as (m' & [= <-] & (t & Ht & Hu) & Hd & Hl & Hp).
    apply ComponentSchema_accepts. eexists. split; [done|].
    rewrite !lookup_insert_ne by done. rewrite lookup_insert_eq.
    split_and!; [by exists t|done|done|]. intros p Hq. injection Hq as <-. eauto.
  - intros t Ht. apply ComponentSchema_accepts. eexists. split; [done|].
    rewrite lookup_singleton_eq, !lookup_singleton_ne by done.
    split_and!; [by exists t|done..].
  - intros m t -> Hm Ht.
    eapply (report_bad_format uri ComponentSchema m "type");
      [by repeat constructor|reflexivity|done|by cbn; rewrite Ht].
  - intros E C R HR. unfold project. rewrite (embed_all_same _ _ HR).
    by eexists.
  - by vm_compute.
  - by eexists.
Qed.

(** ** Relationship *)

(** C6, as stated, fails: a relationship whose predicate is the empty string
    passes RelationshipSchema. *)
Lemma Relationship_empty_predicate_accepted :
  validate is_uri RelationshipSchema (Relationship_to_json empty_predicate) = true
  /\ ~ Relationship_nonempty_predicate is_uri (Relationship_to_json empty_predicate).
Proof.
  split; [by vm_compute|].
  intros (m & s & p & o & H & _ & _ & Hp & Hne & _).
  apply (f_equal (get "predicate")) in H. cbn [get] in H. rewrite Hp in H.
  vm_compute in H. by injection H as <-.
Qed.

(** C6 (amended). Relationship validation succeeds if and only if the value
    is an object whose [subject] and [object] fields are present and are
    strings the URI checker accepts and whose [predicate] field is present
    and is a string, of any content, the empty string included.  A required
    field that is absent is reported as a ShapeError; a [subject] or
    [object] string that is not a URI is reported as a FormatError. *)
Theorem Relationship_validation (uri : string -> bool) (v : json) :
  (validate uri RelationshipSchema v = true
   <-> exists m s p o, v = JObj m
         /\ m !! "subject" = Some (JStr s) /\ uri s = true
         /\ m !! "predicate" = Some (JStr p)
         /\ m !! "object" = Some (JStr o) /\ uri o = true)
  /\ (forall s o, uri s = true -> uri o = true ->
        validate uri RelationshipSchema
          (Relationship_to_json {| Relationship.subject := s;
                                   Relationship.predicate := "";
                                   Relationship.object := o |}) = true)
  /\ (forall m k, v = JObj m -> k ∈ ["subject"; "predicate"; "object"] ->
        m !! k = None -> ShapeError ∈ report uri RelationshipSchema v)
  /\ (forall m k x, v = JObj m -> k ∈ ["subject"; "object"] ->
        m !! k = Some (JStr x) -> uri x = false ->
        FormatError ∈ report uri RelationshipSchema v)
  /\ ShapeError ∈ report is_uri RelationshipSchema
                    (JObj (<[ "subject" := JStr "a" ]> {[ "object" := JStr "b" ]})).
Proof.
  split_and!.
  - apply RelationshipSchema_accepts.
  - intros s o Hs Ho. apply RelationshipSchema_accepts.
    unfold Relationship_to_json.
    cbn [Relationship.subject Relationship.predicate Relationship.object].
    eexists _, s, "", o. split; [reflexivity|]. by simplify_map_eq.
  - intros m k -> Hk Hm. apply (report_missing uri RelationshipSchema m k); [|done].
    cbn. set_solver.
  - intros m k x -> Hk Hm Hx.
    rewrite !elem_of_cons, elem_of_nil in Hk. destruct Hk as [->|[->|[]]].
    + eapply (report_bad_format uri RelationshipSchema m "subject");
        [by repeat constructor|reflexivity|done|by cbn; rewrite Hx].
    + eapply (report_bad_format uri RelationshipSchema m "object");
        [by repeat constructor|reflexivity|done|by cbn; rewrite Hx].
  - apply (report_missing is_uri RelationshipSchema _ "predicate"); [|done].
    cbn. set_solver.
Qed.

(** ** Serialized Entity *)

Lemma complete_pair_valid uri r :
  (exists p o, get "predicate" r = Some (JStr p)
               /\ get "object" r = Some (JStr o) /\ uri o = true) ->
  validate uri EmbeddedRelationshipSchema r = true.
Proof.
  intros (p & o & Hp & Ho & Hu). destruct r; try done. cbn [get] in Hp, Ho.
  apply EmbeddedRelationshipSchema_accepts. exists m. split_and!; [done|..].
  - intros q Hq. rewrite Hp in Hq. injection Hq as <-. eauto.
  - intros q Hq. rewrite Ho in Hq. injection Hq as <-. eauto.
Qed.

(** C3. Every value with a URI [id], valid components and relationship
    entries that each have a [predicate] string and an [object] URI passes
    SerializedEntitySchema; but the schema also passes the envelope whose
    one relationship entry is the empty object, which has neither field and
    which the type alias SerializedEntityType does not admit. *)
Theorem SerializedEntity_incomplete_pair_accepted :
  (forall uri v, SerializedEntity_complete_pairs uri v ->
                 validate uri SerializedEntitySchema v = true)
  /\ validate is_uri SerializedEntitySchema alice_with_empty_pair = true
  /\ ~ SerializedEntity_complete_pairs is_uri alice_with_empty_pair
  /\ conforms SerializedEntityType_shape alice_with_empty_pair = false.
Proof.
  split_and!.
  - intros uri v (m & x & cs & rs & -> & Hi & Hx & Hc & Hcs & Hr & Hrs).
    apply SerializedEntitySchema_accepts. exists m, x, cs, rs.
    split_and!; try done.
    eapply Forall_impl; [exact Hrs|]. intros r. apply complete_pair_valid.
  - by vm_compute.
  - intros (m & x & cs & rs & H & _ & _ & _ & _ & Hr & Hrs).
    apply (f_equal (get "relationships")) in H. cbn [get] in H.
    rewrite Hr in H. vm_compute in H. injection H as <-.
    apply Forall_cons in Hrs as [(p & o & Hp & _) _]. vm_compute in Hp. discriminate.
  - by vm_compute.
Qed.

(** C10. The item schema of [relationships] lists no required field.  An
    entry passes it exactly when it is an object whose [predicate], if
    present, is a string and whose [object], if present, is a URI string:
    the empty object passes, an entry with only one of the two fields
    passes, removing either field or both from a passing entry leaves it
    passing, and an envelope stays valid when the empty object is added to
    its relationships. *)
Theorem Embedded_requires_nothing (uri : string -> bool) (m : gmap string json) :
  required EmbeddedRelationshipSchema = []
  /\ (validate uri EmbeddedRelationshipSchema (JObj m) = true
      <-> (forall p, m !! "predicate" = Some p -> exists x, p = JStr x)
          /\ (forall o, m !! "object" = Some o -> exists x, o = JStr x /\ uri x = true))
  /\ validate uri EmbeddedRelationshipSchema (JObj ∅) = true
  /\ (forall p, validate uri EmbeddedRelationshipSchema
                  (JObj {[ "predicate" := JStr p ]}) = true)
  /\ (forall o, uri o = true ->
                validate uri EmbeddedRelationshipSchema
                  (JObj {[ "object" := JStr o ]}) = true)
  /\ (validate uri EmbeddedRelationshipSchema (JObj m) = true ->
      validate uri EmbeddedRelationshipSchema (JObj (delete "predicate" m)) = true
      /\ validate uri EmbeddedRelationshipSchema (JObj (delete "object" m)) = true
      /\ validate uri EmbeddedRelationshipSchema
           (JObj (delete "predicate" (delete "object" m))) = true)
  /\ (forall rs, m !! "relationships" = Some (JArr rs) ->
        validate uri SerializedEntitySchema (JObj m) = true ->
        validate uri SerializedEntitySchema
          (JObj (<[ "relationships" := JArr (rs ++ [JObj ∅]) ]> m)) = true).
Proof.
  assert (forall m' : gmap string json,
            validate uri EmbeddedRelationshipSchema (JObj m') = true
            <-> (forall p, m' !! "predicate" = Some p -> exists x, p = JStr x)
                /\ (forall o, m' !! "object" = Some o ->
                              exists x, o = JStr x /\ uri x = true)) as Hiff.
  { intros m'. rewrite EmbeddedRelationshipSchema_accepts. split.
    - by intros (m0 & [= <-] & H).
    - intros H. by exists m'. }
  assert (validate uri EmbeddedRelationshipSchema (JObj ∅) = true) as Hempty.
  { apply Hiff. split; intros q Hq; by rewrite lookup_empty in Hq. }
  split_and!.
  - reflexivity.
  - apply Hiff.
  - exact Hempty.
  - intros p. apply Hiff. split; intros q Hq.
    + rewrite lookup_singleton_eq in Hq. injection Hq as <-. eauto.
    + by rewrite lookup_singleton_ne in Hq.
  - intros o Ho. apply Hiff. split; intros q Hq.
    + by rewrite lookup_singleton_ne in Hq.
    + rewrite lookup_singleton_eq in Hq. injection Hq as <-. eauto.
  - intros [Hp Ho]%Hiff. split_and!; apply Hiff; split; intros q Hq.
    + by rewrite lookup_delete_eq in Hq.
    + rewrite lookup_delete_ne in Hq by done. by apply Ho.
    + rewrite lookup_delete_ne in Hq by done. by apply Hp.
    + by rewrite lookup_delete_eq in Hq.
    + by rewrite lookup_delete_eq in Hq.
    + by rewrite lookup_delete_ne, lookup_delete_eq in Hq.
  - intros rs Hrs H. apply SerializedEntitySchema_accepts in H
      as (m0 & x & cs & rs0 & [= <-] & Hi & Hx & Hc & Hcs & Hr & Hrs0).
    rewrite Hrs in Hr. injection Hr as <-.
    apply SerializedEntitySchema_accepts. eexists _, x, cs, _.
    split; [reflexivity|].
    rewrite !lookup_insert_ne by done. rewrite lookup_insert_eq.
    split_and!; try done.
    apply Forall_app. split; [done|]. by constructor.
Qed.

(** ** Open objects *)

(** C9. None of the four literals sets [additionalProperties] to false.
    So for each of them a key that the literal does not declare changes
    nothing: the object with the key passes if and only if the object
    without it does, and the same violations are reported. *)
Theorem undeclared_fields_accepted (uri : string -> bool) (s : schema)
    (m : gmap string json) (k : string) (x : json) :
  In s schemas ->
  mem k (declared s) = false ->
  additionalProperties s <> Some false
  /\ validate uri s (JObj (<[k := x]> m)) = validate uri s (JObj m)
  /\ report uri s (JObj (<[k := x]> m)) = report uri s (JObj m).
Proof.
  intros Hs Hk. apply list_elem_of_In, schemas_open in Hs as [Ha Hr].
  assert (k ∉ declared s) as Hk'.
  { intros H%mem_elem_of. congruence. }
  split_and!; [done|by apply validate_insert_undeclared|].
  unfold report. by rewrite errors_insert_undeclared.
Qed.

Lemma undeclared_fields_accepted_witness :
  (In EntitySchema schemas /\ mem "extra" (declared EntitySchema) = false)
  /\ additionalProperties EntitySchema <> Some false
  /\ validate is_uri EntitySchema alice_with_extra
     = validate is_uri EntitySchema (JObj {[ "id" := JStr alice ]})
  /\ report is_uri EntitySchema alice_with_extra
     = report is_uri EntitySchema (JObj {[ "id" := JStr alice ]}).
Proof.
  split; [split; [simpl; auto|reflexivity]|].
  apply (undeclared_fields_accepted is_uri EntitySchema
           {[ "id" := JStr alice ]} "extra" (JBool true));
    [simpl; auto|reflexivity].
Defined.

(** ** The embedded relationship form *)

(** C7, as stated, fails: a value that passes SerializedEntitySchema, and
    conforms to SerializedEntityType, can carry a [subject] field in an
    embedded pair. *)
Lemma Embedded_subject_accepted :
  validate is_uri SerializedEntitySchema alice_with_subject_pair = true
  /\ conforms SerializedEntityType_shape alice_with_subject_pair = true
  /\ get "relationships" alice_with_subject_pair = Some (JArr [pair_with_subject])
  /\ get "subject" pair_with_subject = Some (JStr bob).
Proof. split_and!; by vm_compute. Qed.

Lemma Embedded_fields_dom (p : EmbeddedRelationship) :
  dom (Embedded_fields p) = {[ "predicate"; "object" ]}.
Proof.
  unfold Embedded_fields. rewrite dom_insert_L, dom_singleton_L. done.
Qed.

(** C7 (amended). The embedded relationship form declares the two fields
    [predicate] and [object] and no [subject], in the item schema and in
    the type alias alike.  A pair produced from typed data, by projection in
    particular, holds exactly these two fields; the item schema neither
    requires nor rejects a [subject] key in a pair it is given.
    Reprojection rebuilds each three-field Relationship from a pair by
    taking the envelope's [id] as subject and keeping predicate and object. *)
Theorem Embedded_two_fields (uri : string -> bool) (se : SerializedEntityType) :
  declared EmbeddedRelationshipSchema = ["predicate"; "object"]
  /\ (shape_fields EmbeddedRelationship_shape).*1 = ["predicate"; "object"]
  /\ (forall p : EmbeddedRelationship,
        dom (Embedded_fields p) = {[ "predicate"; "object" ]}
        /\ get "subject" (Embedded_to_json p) = None)
  /\ (forall rs r,
        get "relationships" (SerializedEntity_to_json se) = Some (JArr rs) ->
        r ∈ rs -> get "subject" r = None)
  /\ (forall m x,
        validate uri EmbeddedRelationshipSchema (JObj (<[ "subject" := x ]> m))
        = validate uri EmbeddedRelationshipSchema (JObj m))
  /\ (reproject se).2
     = restore (SerializedEntity.id se) <$> SerializedEntity.relationships se
  /\ (forall E p,
        Relationship.subject (restore E p) = E
        /\ Relationship.predicate (restore E p) = SerializedEntity.predicate p
        /\ Relationship.object (restore E p) = SerializedEntity.object p)
  /\ Forall (fun r => Relationship.subject r = SerializedEntity.id se) (reproject se).2.
Proof.
  assert (forall p : EmbeddedRelationship, get "subject" (Embedded_to_json p) = None)
    as Hnone.
  { intros p. cbn [get Embedded_to_json]. apply not_elem_of_dom.
    rewrite Embedded_fields_dom. set_solver. }
  split_and!.
  - reflexivity.
  - reflexivity.
  - intros p. split; [apply Embedded_fields_dom|apply Hnone].
  - intros rs r Hrs Hr. unfold SerializedEntity_to_json in Hrs. cbn [get] in Hrs.
    rewrite !lookup_insert_ne, lookup_singleton_eq in Hrs by done.
    injection Hrs as <-. apply list_elem_of_fmap in Hr as (p & -> & _).
    apply Hnone.
  - intros m x. apply validate_insert_undeclared; [done|cbn; set_solver..].
  - reflexivity.
  - done.
  - cbn. apply Forall_fmap, Forall_true. done.
Qed.

(** ** Type aliases against schema literals *)

(** C8, as stated, fails.  The alias EntityType admits [{id: "not a uri"}],
    which EntitySchema rejects; and for the entries of [relationships] the
    item schema makes both fields optional where the alias makes both
    required, so the schema passes an envelope that the alias does not
    admit. *)
Lemma alias_and_schema_differ :
  conforms EntityType_shape (JObj {[ "id" := JStr "not a uri" ]}) = true
  /\ validate is_uri EntitySchema (JObj {[ "id" := JStr "not a uri" ]}) = false
  /\ schema_fields EmbeddedRelationshipSchema
     <> shape_fields EmbeddedRelationship_shape
  /\ validate is_uri SerializedEntitySchema alice_with_empty_pair = true
  /\ conforms SerializedEntityType_shape alice_with_empty_pair = false.
Proof. split_and!; by vm_compute. Qed.

Lemma Entity_schema_to_alias uri v :
  validate uri EntitySchema v = true -> conforms EntityType_shape v = true.
Proof.
  intros (m & x & -> & Hm & _)%EntitySchema_accepts.
  apply EntityType_conforms. by exists m, x.
Qed.

Lemma Component_schema_to_alias uri v :
  validate uri ComponentSchema v = true -> conforms ComponentType_shape v = true.
Proof.
  intros (m & -> & (t & Ht & _) & Hd & Hl & Hp)%ComponentSchema_accepts.
  apply ComponentType_conforms. exists m. split_and!; eauto.
Qed.

Lemma Relationship_schema_to_alias uri v :
  validate uri RelationshipSchema v = true -> conforms RelationshipType_shape v = true.
Proof.
  intros (m & s & p & o & -> & Hs & _ & Hp & Ho & _)%RelationshipSchema_accepts.
  apply RelationshipType_conforms. by exists m, s, p, o.
Qed.

(** C8 (amended). For Entity, Component, Relationship and the top level of
    Serialized Entity, the type alias and the schema literal declare the
    same fields in the same order and agree on which are required and which
    optional.  For Entity, Component and Relationship every value the schema
    accepts conforms to the alias, and when the URI format is not enforced
    the schema accepts exactly the values that conform to the alias.  A
    value that passes SerializedEntitySchema has a string [id], an array of
    components that each conform to ComponentType, and an array of
    relationships, whose entries declare the same two field names in schema
    and alias. *)
Theorem alias_mirrors_schema (uri : string -> bool) (v : json) :
  schema_fields EntitySchema = shape_fields EntityType_shape
  /\ schema_fields ComponentSchema = shape_fields ComponentType_shape
  /\ schema_fields RelationshipSchema = shape_fields RelationshipType_shape
  /\ schema_fields SerializedEntitySchema = shape_fields SerializedEntityType_shape
  /\ declared EmbeddedRelationshipSchema = (shape_fields EmbeddedRelationship_shape).*1
  /\ (validate uri EntitySchema v = true -> conforms EntityType_shape v = true)
  /\ (validate uri ComponentSchema v = true -> conforms ComponentType_shape v = true)
  /\ (validate uri RelationshipSchema v = true ->
      conforms RelationshipType_shape v = true)
  /\ validate any_string EntitySchema v = conforms EntityType_shape v
  /\ validate any_string ComponentSchema v = conforms ComponentType_shape v
  /\ validate any_string RelationshipSchema v = conforms RelationshipType_shape v
  /\ (validate uri SerializedEntitySchema v = true ->
      exists m x cs rs, v = JObj m
        /\ m !! "id" = Some (JStr x)
        /\ m !! "components" = Some (JArr cs)
        /\ Forall (fun c => conforms ComponentType_shape c = true) cs
        /\ m !! "relationships" = Some (JArr rs)).
Proof.
  split_and!; try reflexivity.
  - apply Entity_schema_to_alias.
  - apply Component_schema_to_alias.
  - apply Relationship_schema_to_alias.
  - apply bool_eq_iff. split; [apply Entity_schema_to_alias|].
    intros (m & x & -> & Hm)%EntityType_conforms.
    apply EntitySchema_accepts. by exists m, x.
  - apply bool_eq_iff. split; [apply Component_schema_to_alias|].
    intros (m & -> & (t & Ht) & Hd & Hl & Hp)%ComponentType_conforms.
    apply ComponentSchema_accepts. exists m. split_and!; eauto.
  - apply bool_eq_iff. split; [apply Relationship_schema_to_alias|].
    intros (m & s & p & o & -> & Hs & Hp & Ho)%RelationshipType_conforms.
    apply RelationshipSchema_accepts. by exists m, s, p, o.
  - intros (m & x & cs & rs & -> & Hi & _ & Hc & Hcs & Hr & _)%SerializedEntitySchema_accepts.
    exists m, x, cs, rs. split_and!; try done.
    eapply Forall_impl; [exact Hcs|]. intros c. apply Component_schema_to_alias.
Qed.

(** ** Worked example: Alice knows Bob, stated twice *)

Lemma reproject_project_witness :
  Forall (fun r => Relationship.subject r = alice) [alice_knows_bob; alice_knows_bob]
  /\ exists se,
       project alice [nested_component; nested_component]
                     [alice_knows_bob; alice_knows_bob] = Ok se
       /\ reproject se = ({| Entity.id := alice |},
                          [nested_component; nested_component],
                          [alice_knows_bob; alice_knows_bob]).
Proof.
  split; [by repeat constructor|].
  apply (reproject_project alice [nested_component; nested_component]
           [alice_knows_bob; alice_knows_bob]).
  by repeat constructor.
Defined.

Example project_mismatch :
  project alice [] [alice_knows_bob;
                    {| Relationship.subject := bob;
                       Relationship.predicate := knows;
                       Relationship.object := alice |}]
  = Fail ConsistencyError.
Proof. reflexivity. Qed.

Example projected_envelope_validates :
  exists se, project alice [nested_component] [alice_knows_bob] = Ok se
             /\ validate is_uri SerializedEntitySchema (SerializedEntity_to_json se) = true.
Proof. eexists. split; [reflexivity|by vm_compute]. Qed.


(** The malformed URIs of the specification's examples are FormatErrors. *)
Example malformed_uris_reported :
  report is_uri EntitySchema (JObj {[ "id" := JStr "not a uri" ]}) = [FormatError]
  /\ report is_uri ComponentSchema (JObj {[ "type" := JStr "not-a-uri-either" ]})
     = [FormatError].
Proof. split; by vm_compute. Qed.

(** A number where a string is expected is a TypeError; an array where an
    object is expected is a ShapeError. *)
Example wrong_kinds_reported :
  report is_uri ComponentSchema
    (JObj (<[ "label" := JNum 1%float ]> {[ "type" := JStr alice ]})) = [TypeError]
  /\ report is_uri RelationshipSchema (JArr []) = [ShapeError].
Proof. split; by vm_compute. Qed.

(** * Further properties of the literals and aliases *)

(** ** Typed values under validation *)

Lemma JObj_inj (m m' : gmap string json) : JObj m = JObj m' -> m = m'.
Proof.
  intros H.
  apply (f_equal (fun v => match v with JObj x => x | _ => ∅ end)) in H.
  exact H.
Qed.

Lemma forallb_Forall_true {A} (f : A -> bool) (l : list A) :
  forallb f l = true <-> Forall (fun x => f x = true) l.
Proof.
  induction l as [|x l IH]; cbn [forallb].
  - split; [constructor|done].
  - by rewrite andb_true_iff, Forall_cons, IH.
Qed.

Lemma get_Component_to_json (c : ComponentType) :
  get "type" (Component_to_json c) = Some (JStr (Component.type c))
  /\ get "description" (Component_to_json c) = JStr <$> Component.description c
  /\ get "label" (Component_to_json c) = JStr <$> Component.label c
  /\ get "properties" (Component_to_json c) = JObj <$> Component.properties c.
Proof.
  destruct c as [t [d|] [l|] [p|]];
    cbn [get Component_to_json set_optional fmap option_fmap option_map
           Component.type Component.description Component.label
           Component.properties];
    split_and!; by simplify_map_eq.
Qed.

Lemma Entity_to_json_valid (uri : string -> bool) (e : EntityType) :
  validate uri EntitySchema (Entity_to_json e) = uri (Entity.id e).
Proof.
  apply bool_eq_iff. rewrite EntitySchema_accepts. unfold Entity_to_json. split.
  - intros (m & x & <-%JObj_inj & Hm & Hx).
    rewrite lookup_singleton_eq in Hm. by injection Hm as <-.
  - intros H. eexists _, _. split; [reflexivity|].
    by rewrite lookup_singleton_eq.
Qed.

Lemma Component_to_json_valid (uri : string -> bool) (c : ComponentType) :
  validate uri ComponentSchema (Component_to_json c) = uri (Component.type c).
Proof.
  destruct (get_Component_to_json c) as (Ht & Hd & Hl & Hp).
  apply bool_eq_iff. rewrite ComponentSchema_accepts.
  unfold Component_to_json in *. cbn [get] in Ht, Hd, Hl, Hp. split.
  - intros (m & <-%JObj_inj & (t & Hm & Hu) & _).
    rewrite Ht in Hm. by injection Hm as <-.
  - intros H. eexists. split; [reflexivity|].
    rewrite Ht, Hd, Hl, Hp. split_and!.
    + by eexists.
    + intros d. destruct (Component.description c); [|done].
      intros [= <-]. eauto.
    + intros l. destruct (Component.label c); [|done].
      intros [= <-]. eauto.
    + intros p. destruct (Component.properties c); [|done].
      intros [= <-]. eauto.
Qed.

Lemma Relationship_to_json_valid (uri : string -> bool) (r : RelationshipType) :
  validate uri RelationshipSchema (Relationship_to_json r)
  = uri (Relationship.subject r) && uri (Relationship.object r).
Proof.
  apply bool_eq_iff. rewrite RelationshipSchema_accepts, andb_true_iff.
  unfold Relationship_to_json. split.
  - intros (m & s & p & o & <-%JObj_inj & Hs & Hus & _ & Ho & Huo).
    simplify_map_eq. done.
  - intros [Hs Ho]. eexists _, _, _, _. split; [reflexivity|].
    by simplify_map_eq.
Qed.

(** X1. A typed value written as an object passes its schema exactly when
    its URI fields are URIs: an Entity when its [id] is one; a Component,
    with its optional fields left out when absent, when its [type] is one,
    whatever its description, label and payload; a Relationship when its
    [subject] and [object] are, whatever its predicate. *)
Theorem typed_values_valid (uri : string -> bool) (e : EntityType)
    (c : ComponentType) (r : RelationshipType) :
  validate uri EntitySchema (Entity_to_json e) = uri (Entity.id e)
  /\ validate uri ComponentSchema (Component_to_json c) = uri (Component.type c)
  /\ validate uri RelationshipSchema (Relationship_to_json r)
     = uri (Relationship.subject r) && uri (Relationship.object r).
Proof.
  split_and!.
  - apply Entity_to_json_valid.
  - apply Component_to_json_valid.
  - apply Relationship_to_json_valid.
Qed.

Lemma Embedded_typed_valid (uri : string -> bool) (p : EmbeddedRelationship) :
  validate uri EmbeddedRelationshipSchema (Embedded_to_json p)
  = uri (SerializedEntity.object p).
Proof.
  apply bool_eq_iff. rewrite EmbeddedRelationshipSchema_accepts.
  unfold Embedded_to_json, Embedded_fields. split.
  - intros (m & <-%JObj_inj & _ & Ho).
    destruct (Ho (JStr (SerializedEntity.object p))) as (x & [= <-] & Hx);
      [by simplify_map_eq|done].
  - intros H. eexists. split; [reflexivity|]. split; intros q Hq.
    + simplify_map_eq. eauto.
    + simplify_map_eq. eauto.
Qed.

(** The envelope of given id, components and relationship entries passes
    exactly when the id is a URI and each element passes its item schema. *)
Lemma envelope_valid (uri : string -> bool) x cs rs :
  validate uri SerializedEntitySchema (envelope x cs rs)
  = uri x && forallb (validate uri ComponentSchema) cs
    && forallb (validate uri EmbeddedRelationshipSchema) rs.
Proof.
  apply bool_eq_iff.
  rewrite SerializedEntitySchema_accepts, !andb_true_iff, !forallb_Forall_true.
  unfold envelope. split.
  - intros (m & x' & cs' & rs' & <-%JObj_inj & Hi & Hx & Hc & Hcs & Hr & Hrs).
    simplify_map_eq. done.
  - intros [[Hx Hcs] Hrs]. eexists _, x, cs, rs. split; [reflexivity|].
    by simplify_map_eq.
Qed.

(** X2. A typed Serialized Entity passes SerializedEntitySchema exactly when
    its [id], the [type] of each of its components and the [object] of each
    of its relationship entries are URIs. *)
Theorem SerializedEntity_typed_valid (uri : string -> bool) (se : SerializedEntityType) :
  validate uri SerializedEntitySchema (SerializedEntity_to_json se)
  = uri (SerializedEntity.id se)
    && forallb (fun c => uri (Component.type c)) (SerializedEntity.components se)
    && forallb (fun p => uri (SerializedEntity.object p))
               (SerializedEntity.relationships se).
Proof.
  change (SerializedEntity_to_json se)
    with (envelope (SerializedEntity.id se)
            (Component_to_json <$> SerializedEntity.components se)
            (Embedded_to_json <$> SerializedEntity.relationships se)).
  rewrite envelope_valid. f_equal; [f_equal|].
  - induction (SerializedEntity.components se) as [|c cs IH]; [done|].
    cbn [fmap list_fmap forallb]. by rewrite Component_to_json_valid, <- IH.
  - induction (SerializedEntity.relationships se) as [|p ps IH]; [done|].
    cbn [fmap list_fmap forallb]. by rewrite Embedded_typed_valid, <- IH.
Qed.

(** ** Edge cases of the four literals *)

(** X3. Each of the four literals is an object schema: a candidate that is
    not an object (null, a boolean, a number, a string, an array) is
    rejected, and the one violation reported is of [type], at the root. *)
Theorem non_object_rejected (uri : string -> bool) (s : schema) (v : json) :
  In s schemas -> is_object v = false ->
  validate uri s v = false /\ errors uri s [] v = [Error [] kw_type].
Proof.
  intros Hs Hv.
  assert (errors uri s [] v = [Error [] kw_type]) as He.
  { cbn [In schemas] in Hs.
    destruct Hs as [<-|[<-|[<-|[<-|[]]]]]; destruct v; try discriminate; reflexivity. }
  split; [|done]. unfold validate. by rewrite He.
Qed.

Lemma non_object_rejected_witness :
  (In SerializedEntitySchema schemas /\ is_object (JArr [JObj ∅]) = false)
  /\ validate is_uri SerializedEntitySchema (JArr [JObj ∅]) = false
  /\ errors is_uri SerializedEntitySchema [] (JArr [JObj ∅]) = [Error [] kw_type].
Proof.
  split; [split; [simpl; auto|reflexivity]|].
  apply (non_object_rejected is_uri SerializedEntitySchema (JArr [JObj ∅]));
    [simpl; auto|reflexivity].
Defined.

Lemma missing_required_invalid uri s (m : gmap string json) k :
  In k (required s) -> m !! k = None -> validate uri s (JObj m) = false.
Proof.
  intros Hk Hm. destruct (validate uri s (JObj m)) eqn:Hv; [|done].
  apply validate_iff in Hv as (_ & _ & Hr & _).
  specialize (Hr m eq_refl). rewrite Forall_forall in Hr.
  apply list_elem_of_In, Hr in Hk as [x Hx]. congruence.
Qed.

(** X4. Each of the four literals requires at least one field, so each
    rejects the empty object; and an object that lacks any one of the names
    the literal lists under [required] is rejected whatever else it holds. *)
Theorem missing_required_rejected (uri : string -> bool) (s : schema) :
  In s schemas ->
  validate uri s (JObj ∅) = false
  /\ (forall (m : gmap string json) k,
        In k (required s) -> m !! k = None -> validate uri s (JObj m) = false).
Proof.
  intros Hs. split; [|intros m k; apply missing_required_invalid].
  cbn [In schemas] in Hs. destruct Hs as [<-|[<-|[<-|[<-|[]]]]].
  - by apply (missing_required_invalid uri _ _ "id"); [simpl; auto|].
  - by apply (missing_required_invalid uri _ _ "type"); [simpl; auto|].
  - by apply (missing_required_invalid uri _ _ "subject"); [simpl; auto|].
  - by apply (missing_required_invalid uri _ _ "id"); [simpl; auto|].
Qed.

Lemma missing_required_rejected_witness :
  In SerializedEntitySchema schemas
  /\ validate is_uri SerializedEntitySchema (JObj ∅) = false
  /\ (forall (m : gmap string json) k,
        In k (required SerializedEntitySchema) -> m !! k = None ->
        validate is_uri SerializedEntitySchema (JObj m) = false).
Proof.
  split; [simpl; auto|].
  apply (missing_required_rejected is_uri SerializedEntitySchema). simpl; auto.
Defined.

(** ** Envelopes compose *)

(** X5. Two envelopes of the same id are both valid exactly when the
    envelope holding the components of both and the relationships of both
    is valid: arrays may be joined and split freely, and the empty arrays
    are allowed. *)
Theorem envelope_app (uri : string -> bool) (x : string) (cs1 cs2 rs1 rs2 : list json) :
  validate uri SerializedEntitySchema (envelope x (cs1 ++ cs2) (rs1 ++ rs2))
  = validate uri SerializedEntitySchema (envelope x cs1 rs1)
    && validate uri SerializedEntitySchema (envelope x cs2 rs2).
Proof.
  rewrite !envelope_valid, !forallb_app.
  destruct (uri x), (forallb (validate uri ComponentSchema) cs1),
    (forallb (validate uri ComponentSchema) cs2),
    (forallb (validate uri EmbeddedRelationshipSchema) rs1); done.
Qed.

Lemma forallb_Permutation {A} (f : A -> bool) (l l' : list A) :
  l ≡ₚ l' -> forallb f l = forallb f l'.
Proof.
  intros H. apply bool_eq_iff. rewrite !forallb_Forall_true. by rewrite H.
Qed.

(** X6. The schema puts no order and no uniqueness on the two arrays: an
    envelope whose components and relationships are rearranged is valid
    exactly when the original is, and so is one in which an element is
    repeated. *)
Theorem envelope_Permutation (uri : string -> bool) (x : string)
    (cs cs' rs rs' : list json) :
  cs ≡ₚ cs' -> rs ≡ₚ rs' ->
  validate uri SerializedEntitySchema (envelope x cs' rs')
  = validate uri SerializedEntitySchema (envelope x cs rs)
  /\ validate uri SerializedEntitySchema (envelope x (cs ++ cs) (rs ++ rs))
     = validate uri SerializedEntitySchema (envelope x cs rs).
Proof.
  intros Hc Hr. split.
  - rewrite !envelope_valid.
    by rewrite (forallb_Permutation _ _ _ Hc), (forallb_Permutation _ _ _ Hr).
  - rewrite !envelope_valid, !forallb_app.
    by destruct (uri x), (forallb (validate uri ComponentSchema) cs),
         (forallb (validate uri EmbeddedRelationshipSchema) rs).
Qed.

Lemma envelope_Permutation_witness :
  ([Component_to_json nested_component; JObj {[ "type" := JStr knows ]}]
     ≡ₚ [JObj {[ "type" := JStr knows ]}; Component_to_json nested_component]
   /\ [JObj ∅; pair_with_subject] ≡ₚ [pair_with_subject; JObj ∅])
  /\ validate is_uri SerializedEntitySchema
       (envelope alice
          [JObj {[ "type" := JStr knows ]}; Component_to_json nested_component]
          [pair_with_subject; JObj ∅])
     = validate is_uri SerializedEntitySchema
         (envelope alice
            [Component_to_json nested_component; JObj {[ "type" := JStr knows ]}]
            [JObj ∅; pair_with_subject])
  /\ validate is_uri SerializedEntitySchema
       (envelope alice
          ([Component_to_json nested_component; JObj {[ "type" := JStr knows ]}]
             ++ [Component_to_json nested_component; JObj {[ "type" := JStr knows ]}])
          ([JObj ∅; pair_with_subject] ++ [JObj ∅; pair_with_subject]))
     = validate is_uri SerializedEntitySchema
         (envelope alice
            [Component_to_json nested_component; JObj {[ "type" := JStr knows ]}]
            [JObj ∅; pair_with_subject]).
Proof.
  split; [split; apply Permutation_swap|].
  apply (envelope_Permutation is_uri alice); apply Permutation_swap.
Defined.

(** ** Standalone and embedded relationships *)

(** X7. Whatever passes RelationshipSchema also passes the item schema of
    [relationships], with its [subject] field or without it: the embedded
    form asks for nothing the standalone form does not. *)
Theorem Relationship_valid_as_embedded (uri : string -> bool) (m : gmap string json) :
  validate uri RelationshipSchema (JObj m) = true ->
  validate uri EmbeddedRelationshipSchema (JObj m) = true
  /\ validate uri EmbeddedRelationshipSchema (JObj (delete "subject" m)) = true.
Proof.
  intros (m' & s & p & o & <-%JObj_inj & Hs & Hus & Hp & Ho & Huo)%RelationshipSchema_accepts.
  split; apply EmbeddedRelationshipSchema_accepts; eexists; (split; [reflexivity|]).
  - split; intros q Hq; simplify_map_eq; eauto.
  - rewrite !lookup_delete_ne by done. split; intros q Hq; simplify_map_eq; eauto.
Qed.

Lemma Relationship_valid_as_embedded_witness :
  validate is_uri RelationshipSchema pair_with_subject = true
  /\ validate is_uri EmbeddedRelationshipSchema pair_with_subject = true
  /\ validate is_uri EmbeddedRelationshipSchema
       (JObj (delete "subject"
                (<[ "subject" := JStr bob ]>
                   (<[ "predicate" := JStr knows ]> {[ "object" := JStr bob ]})))) = true.
Proof.
  split; [by vm_compute|].
  apply (Relationship_valid_as_embedded is_uri
           (<[ "subject" := JStr bob ]>
              (<[ "predicate" := JStr knows ]> {[ "object" := JStr bob ]}))).
  by vm_compute.
Defined.

(** X8. In the other direction the item schema is too weak on its own: an
    entry it passes becomes a valid standalone Relationship, once a URI is
    put in as [subject], exactly when the entry has both a [predicate] and
    an [object]. *)
Theorem embedded_with_subject (uri : string -> bool) (m : gmap string json) (s : string) :
  validate uri EmbeddedRelationshipSchema (JObj m) = true -> uri s = true ->
  validate uri RelationshipSchema (JObj (<[ "subject" := JStr s ]> m))
  = bool_decide (is_Some (m !! "predicate") /\ is_Some (m !! "object")).
Proof.
  intros (m' & <-%JObj_inj & Hp & Ho)%EmbeddedRelationshipSchema_accepts Hs.
  apply bool_eq_iff. rewrite bool_decide_eq_true, RelationshipSchema_accepts. split.
  - intros (m' & s' & p & o & <-%JObj_inj & _ & _ & Hmp & Hmo & _).
    rewrite lookup_insert_ne in Hmp, Hmo by done. by rewrite Hmp, Hmo.
  - intros [[p Hmp] [o Hmo]].
    destruct (Hp p Hmp) as [xp ->]. destruct (Ho o Hmo) as (xo & -> & Hxo).
    eexists _, s, xp, xo. split; [reflexivity|].
    rewrite lookup_insert_eq, !lookup_insert_ne by done. done.
Qed.

Lemma embedded_with_subject_witness :
  (validate is_uri EmbeddedRelationshipSchema (JObj {[ "predicate" := JStr knows ]}) = true
   /\ is_uri alice = true)
  /\ validate is_uri RelationshipSchema
       (JObj (<[ "subject" := JStr alice ]> {[ "predicate" := JStr knows ]}))
     = bool_decide (is_Some (({[ "predicate" := JStr knows ]} : gmap string json) !! "predicate")
                    /\ is_Some (({[ "predicate" := JStr knows ]} : gmap string json) !! "object")).
Proof.
  split; [split; by vm_compute|].
  apply (embedded_with_subject is_uri {[ "predicate" := JStr knows ]} alice);
    by vm_compute.
Defined.

(** ** The README's field names against index.ts *)

(** X9. A relationship written with the field names of the README
    ([source], [target], [predicate]) is rejected by RelationshipSchema and
    does not have the shape of RelationshipType, whatever the three strings
    are: it has neither a [subject] nor an [object]. *)
Theorem Readme_relationship_rejected (uri : string -> bool)
    (r : ReadmeRelationship.RelationshipType) :
  validate uri RelationshipSchema (ReadmeRelationship_to_json r) = false
  /\ conforms RelationshipType_shape (ReadmeRelationship_to_json r) = false
  /\ get "subject" (ReadmeRelationship_to_json r) = None
  /\ get "object" (ReadmeRelationship_to_json r) = None.
Proof.
  unfold ReadmeRelationship_to_json. split_and!.
  - apply (missing_required_invalid uri RelationshipSchema _ "subject");
      [simpl; auto|by simplify_map_eq].
  - destruct (conforms _ _) eqn:Hc; [|done].
    apply RelationshipType_conforms in Hc as (m & s & p & o & <-%JObj_inj & Hs & _).
    by simplify_map_eq.
  - cbn [get]. by simplify_map_eq.
  - cbn [get]. by simplify_map_eq.
Qed.

Lemma Readme_entry_valid (uri : string -> bool) (p : ReadmeEmbedded.EmbeddedRelationship) :
  validate uri EmbeddedRelationshipSchema (ReadmeEmbedded_to_json p) = true.
Proof.
  apply EmbeddedRelationshipSchema_accepts. unfold ReadmeEmbedded_to_json.
  eexists. split; [reflexivity|]. split; intros q Hq; simplify_map_eq; eauto.
Qed.

Lemma Readme_entry_not_conforming (p : ReadmeEmbedded.EmbeddedRelationship) :
  conforms EmbeddedRelationship_shape (ReadmeEmbedded_to_json p) = false.
Proof.
  destruct (conforms _ _) eqn:Hc; [|done].
  unfold EmbeddedRelationship_shape in Hc.
  apply conforms_object in Hc as (m & <-%JObj_inj & H).
  each_element_in H. destruct H as (_ & Ho & _).
  by rewrite !lookup_insert_ne, lookup_singleton_ne in Ho.
Qed.

(** X10. Relationship entries written with the field names of the README
    ([target], [predicate]) pass SerializedEntitySchema without their
    [target] ever being checked: the envelope is valid exactly when it is
    valid with no relationships at all, also when a target is not a URI.
    Yet as soon as there is one such entry the envelope does not have the
    shape of SerializedEntityType, which wants an [object] in each. *)
Theorem Readme_entries_unchecked (uri : string -> bool) (x : string)
    (cs : list json) (ps : list ReadmeEmbedded.EmbeddedRelationship) :
  validate uri SerializedEntitySchema (envelope x cs (ReadmeEmbedded_to_json <$> ps))
  = validate uri SerializedEntitySchema (envelope x cs [])
  /\ (ps <> [] ->
      conforms SerializedEntityType_shape
        (envelope x cs (ReadmeEmbedded_to_json <$> ps)) = false).
Proof.
  split.
  - rewrite !envelope_valid. f_equal.
    induction ps as [|p ps IH]; [done|].
    cbn [fmap list_fmap forallb]. by rewrite Readme_entry_valid, IH.
  - intros Hps. destruct ps as [|p ps]; [done|].
    destruct (conforms _ _) eqn:Hc; [|done].
    unfold SerializedEntityType_shape, envelope in Hc.
    apply conforms_object in Hc as (m & <-%JObj_inj & H).
    each_element_in H. destruct H as (_ & _ & Hr & _).
    rewrite !lookup_insert_ne, lookup_singleton_eq in Hr by done.
    cbn [conforms fmap list_fmap forallb] in Hr.
    apply andb_true_iff in Hr as [Hr _].
    change (conforms EmbeddedRelationship_shape (ReadmeEmbedded_to_json p) = true) in Hr.
    by rewrite Readme_entry_not_conforming in Hr.
Qed.

(** ** The URI checker *)

Lemma check_format_mono (uri1 uri2 : string -> bool) f v :
  (forall x, uri1 x = true -> uri2 x = true) ->
  check_format uri1 f v = true -> check_format uri2 f v = true.
Proof.
  intros H. unfold check_format. destruct v; try done.
  destruct (String.eqb f "uri"); [apply H|done].
Qed.

Lemma validate_mono (uri1 uri2 : string -> bool) :
  (forall x, uri1 x = true -> uri2 x = true) ->
  forall s v, validate uri1 s v = true -> validate uri2 s v = true.
Proof.
  intros H s.
  induction s as [t d ty f ps r i a IHps IHi] using schema_nested_ind.
  intros v. rewrite !validate_iff.
  unfold type_ok, format_ok, required_ok, additional_ok, properties_ok, items_ok.
  cbn [type format required additionalProperties properties items declared].
  intros (H1 & H2 & H3 & H4 & H5 & H6). split_and!; try done.
  - intros f' Hf. by eapply check_format_mono, H2.
  - intros m ->. specialize (H5 m eq_refl).
    revert H5. clear -IHps. induction IHps as [|q ps Hq _ IH]; [done|].
    rewrite !Forall_cons. intros [Hh Ht]. split; [|by apply IH].
    intros vk Hvk. by apply Hq, Hh.
  - intros si l -> ->. specialize (H6 si l eq_refl eq_refl).
    eapply Forall_impl; [exact H6|]. intros y. by apply IHi.
Qed.

(** X11. Acceptance grows with the URI checker: a value that a schema
    accepts under some checker is accepted under every checker that accepts
    at least the same strings, and so under the one that takes any string,
    which is all the aliases ask of a URI field.  This holds for every
    schema, the four literals among them. *)
Theorem accepted_under_weaker_checker (uri1 uri2 : string -> bool) (s : schema) (v : json) :
  (forall x, uri1 x = true -> uri2 x = true) ->
  validate uri1 s v = true ->
  validate uri2 s v = true /\ validate any_string s v = true.
Proof.
  intros H Hv. split; [by eapply validate_mono|].
  by eapply (validate_mono uri1 any_string).
Qed.

Lemma accepted_under_weaker_checker_witness :
  ((forall x, is_uri x = true -> any_string x = true)
   /\ validate is_uri RelationshipSchema pair_with_subject = true)
  /\ validate any_string RelationshipSchema pair_with_subject = true
  /\ validate any_string RelationshipSchema pair_with_subject = true.
Proof.
  split; [split; [done|by vm_compute]|].
  apply (accepted_under_weaker_checker is_uri any_string RelationshipSchema
           pair_with_subject); [done|by vm_compute].
Defined.

(** ** Schema-valid envelopes and the alias *)

Lemma Embedded_complete_conforms uri r :
  validate uri EmbeddedRelationshipSchema r = true ->
  is_Some (get "predicate" r) -> is_Some (get "object" r) ->
  conforms EmbeddedRelationship_shape r = true.
Proof.
  intros (m & -> & Hp & Ho)%EmbeddedRelationshipSchema_accepts [p Hmp] [o Hmo].
  cbn [get] in Hmp, Hmo.
  destruct (Hp p Hmp) as [xp ->]. destruct (Ho o Hmo) as (xo & -> & _).
  unfold EmbeddedRelationship_shape. apply conforms_object.
  exists m. split; [done|]. each_element. by rewrite Hmp, Hmo.
Qed.

(** X12. A value that passes SerializedEntitySchema has the shape of
    SerializedEntityType as soon as each of its relationship entries has
    both a [predicate] and an [object]: the two required marks are all that
    the item schema is missing with respect to the alias. *)
Theorem complete_envelope_conforms (uri : string -> bool) (v : json) :
  validate uri SerializedEntitySchema v = true ->
  (forall rs r, get "relationships" v = Some (JArr rs) -> r ∈ rs ->
                is_Some (get "predicate" r) /\ is_Some (get "object" r)) ->
  conforms SerializedEntityType_shape v = true.
Proof.
  intros (m & x & cs & rs & -> & Hi & _ & Hc & Hcs & Hr & Hrs)%SerializedEntitySchema_accepts
    Hcomplete.
  specialize (Hcomplete rs). cbn [get] in Hcomplete.
  unfold SerializedEntityType_shape. apply conforms_object.
  exists m. split; [done|]. each_element. rewrite Hi, Hc, Hr.
  cbn [conforms is_string]. split_and!; try done.
  - apply forallb_Forall_true. eapply Forall_impl; [exact Hcs|].
    intros c. apply Component_schema_to_alias.
  - apply forallb_Forall_true. apply Forall_forall. intros r Hin.
    rewrite Forall_forall in Hrs.
    destruct (Hcomplete r Hr Hin) as [Hp Ho].
    by eapply Embedded_complete_conforms; [apply Hrs|..].
Qed.

Lemma complete_envelope_conforms_witness :
  (validate is_uri SerializedEntitySchema alice_with_subject_pair = true
   /\ (forall rs r, get "relationships" alice_with_subject_pair = Some (JArr rs) ->
                    r ∈ rs -> is_Some (get "predicate" r) /\ is_Some (get "object" r)))
  /\ conforms SerializedEntityType_shape alice_with_subject_pair = true.
Proof.
  assert (forall rs r, get "relationships" alice_with_subject_pair = Some (JArr rs) ->
                       r ∈ rs -> is_Some (get "predicate" r) /\ is_Some (get "object" r))
    as Hall.
  { intros rs r Hrs Hr. vm_compute in Hrs. injection Hrs as <-.
    apply list_elem_of_singleton in Hr as ->.
    split; vm_compute; eexists; reflexivity. }
  split; [split; [by vm_compute|exact Hall]|].
  apply (complete_envelope_conforms is_uri alice_with_subject_pair);
    [by vm_compute|exact Hall].
Defined.

(** ** Typed values and the declared shapes *)



